(** * A command-line task manager (todo.py): model and verified properties

    The development embeds [src/todo.py]: the due-date parser
    [parse_due_date], the [Task] entity and the [Tasks] store with its
    operations, [age_in_days] and [main], together with the parts of the
    Python runtime they call ([str.strip], [str.lower], [int], [str] of
    an int, [datetime], [datetime.strptime], [list.sort], [pickle]).

    Conventions.
    - A Python [str] is a [string]; a character is a code point below 256
      (the Latin-1 range of Python's [str]).
    - A Python [int] is a [Z].
    - A [datetime] is the record of its seven fields, as in the reference
      implementation of the [datetime] module; comparison is the comparison
      of the field tuples, arithmetic goes through the proleptic Gregorian
      ordinal and raises [OverflowError] outside [1, 3652059].
    - Code that can raise returns a [result]; store operations thread a
      [world] (the in-memory collection, the pickle file, standard output)
      and keep the world reached when an exception escapes. *)

From Stdlib Require Import ZArith Lia Bool List String Ascii.
From Stdlib Require Import Permutation Sorted.
From Stdlib Require Decimal DecimalString DecimalPos DecimalFacts.
Import ListNotations.

Local Open Scope string_scope.
Local Open Scope list_scope.
Local Open Scope Z_scope.

(** ** Exceptions and results *)

Inductive exn : Type :=
| ValueError
| OverflowError
| UnpicklingError
| SystemExit (status : Z).

Inductive result (A : Type) : Type :=
| Ok (a : A)
| Raise (e : exn).

Arguments Ok {A} a.
Arguments Raise {A} e.

(** ** Strings: [str.isspace], [str.strip], [str.lower], [in] *)

Module Str.

Definition code (c : ascii) : Z := Z.of_N (N_of_ascii c).

(** [str.isspace] on one character: the code points below 256 with
    bidirectional class WS, B or S, or category Zs. *)
Definition is_space (c : ascii) : bool :=
  let n := code c in
  ((9 <=? n) && (n <=? 13)) || ((28 <=? n) && (n <=? 32))
  || (n =? 133) || (n =? 160).

(** [str.lower] on one character: A-Z, and the upper-case letters of the
    Latin-1 supplement (0xC0-0xDE without the multiplication sign). *)
Definition lower_char (c : ascii) : ascii :=
  let n := code c in
  if ((65 <=? n) && (n <=? 90))
     || ((192 <=? n) && (n <=? 222) && negb (n =? 215))
  then ascii_of_N (Z.to_N (n + 32))
  else c.

Fixpoint lower (s : string) : string :=
  match s with
  | EmptyString => EmptyString
  | String c r => String (lower_char c) (lower r)
  end.

Fixpoint lstrip (s : string) : string :=
  match s with
  | EmptyString => EmptyString
  | String c r => if is_space c then lstrip r else s
  end.

Fixpoint rstrip (s : string) : string :=
  match s with
  | EmptyString => EmptyString
  | String c r =>
      match rstrip r with
      | EmptyString => if is_space c then EmptyString else String c EmptyString
      | r' => String c r'
      end
  end.

Definition strip (s : string) : string := rstrip (lstrip s).

(** [needle in hay] *)
Fixpoint contains (needle hay : string) : bool :=
  String.prefix needle hay
  || match hay with
     | EmptyString => false
     | String _ r => contains needle r
     end.

(** [l.index(s)] and [s in l] for a list of strings *)
Fixpoint index (s : string) (l : list string) : option Z :=
  match l with
  | [] => None
  | x :: r => if String.eqb s x then Some 0
              else option_map Z.succ (index s r)
  end.

Definition is_digit (c : ascii) : bool :=
  let n := code c in (48 <=? n) && (n <=? 57).

Definition digit_val (c : ascii) : Z := code c - 48.

End Str.

(** ** The [datetime] module *)

Module DT.

Record datetime : Type := mk {
  year : Z; month : Z; day : Z;
  hour : Z; minute : Z; second : Z; microsecond : Z
}.

Definition MINYEAR : Z := 1.
Definition MAXYEAR : Z := 9999.
Definition MAXORDINAL : Z := 3652059.

(** [datetime.max] *)
Definition max : datetime := mk 9999 12 31 23 59 59 999999.

Definition is_leap (y : Z) : bool :=
  (y mod 4 =? 0) && (negb (y mod 100 =? 0) || (y mod 400 =? 0)).

(** [_DAYS_IN_MONTH] and [_DAYS_BEFORE_MONTH], indexed from 1 *)
Definition DAYS_IN_MONTH (m : Z) : Z :=
  match m with
  | 1 => 31 | 2 => 28 | 3 => 31 | 4 => 30 | 5 => 31 | 6 => 30
  | 7 => 31 | 8 => 31 | 9 => 30 | 10 => 31 | 11 => 30 | 12 => 31
  | _ => 0
  end.

Definition DAYS_BEFORE_MONTH (m : Z) : Z :=
  match m with
  | 1 => 0 | 2 => 31 | 3 => 59 | 4 => 90 | 5 => 120 | 6 => 151
  | 7 => 181 | 8 => 212 | 9 => 243 | 10 => 273 | 11 => 304 | 12 => 334
  | _ => 0
  end.

Definition days_in_month (y m : Z) : Z :=
  if (m =? 2) && is_leap y then 29 else DAYS_IN_MONTH m.

Definition days_before_year (y : Z) : Z :=
  let y := y - 1 in y * 365 + y / 4 - y / 100 + y / 400.

Definition days_before_month (y m : Z) : Z :=
  DAYS_BEFORE_MONTH m + (if (2 <? m) && is_leap y then 1 else 0).

Definition ymd2ord (y m d : Z) : Z :=
  days_before_year y + days_before_month y m + d.

Definition DI400Y : Z := 146097.
Definition DI100Y : Z := 36524.
Definition DI4Y : Z := 1461.

(** [_ord2ymd]: ordinal to (year, month, day) *)
Definition ord2ymd (n : Z) : Z * Z * Z :=
  let n := n - 1 in
  let n400 := n / DI400Y in let n := n mod DI400Y in
  let y := n400 * 400 + 1 in
  let n100 := n / DI100Y in let n := n mod DI100Y in
  let n4 := n / DI4Y in let n := n mod DI4Y in
  let n1 := n / 365 in let n := n mod 365 in
  let y := y + n100 * 100 + n4 * 4 + n1 in
  if (n1 =? 4) || (n100 =? 4) then (y - 1, 12, 31)
  else
    let leapyear := (n1 =? 3) && (negb (n4 =? 24) || (n100 =? 3)) in
    let m := Z.shiftr (n + 50) 5 in
    let preceding :=
      DAYS_BEFORE_MONTH m + (if (2 <? m) && leapyear then 1 else 0) in
    if n <? preceding then
      let m := m - 1 in
      let preceding :=
        preceding - (DAYS_IN_MONTH m
                     + (if (m =? 2) && leapyear then 1 else 0)) in
      (y, m, n - preceding + 1)
    else (y, m, n - preceding + 1).

Definition toordinal (d : datetime) : Z :=
  ymd2ord (year d) (month d) (day d).

(** [weekday()]: Monday is 0 *)
Definition weekday (d : datetime) : Z := (toordinal d + 6) mod 7.

(** The check of the constructor, [_check_date_fields] and
    [_check_time_fields] *)
Definition valid_date (y m d : Z) : bool :=
  (MINYEAR <=? y) && (y <=? MAXYEAR) && (1 <=? m) && (m <=? 12)
  && (1 <=? d) && (d <=? days_in_month y m).

Definition valid (d : datetime) : bool :=
  valid_date (year d) (month d) (day d)
  && (0 <=? hour d) && (hour d <=? 23)
  && (0 <=? minute d) && (minute d <=? 59)
  && (0 <=? second d) && (second d <=? 59)
  && (0 <=? microsecond d) && (microsecond d <=? 999999).

(** [d + timedelta(days=k)]: the time of day is kept, the date goes
    through the ordinal, and a result outside the supported range
    raises. *)
Definition add_days (d : datetime) (k : Z) : result datetime :=
  let n := toordinal d + k in
  if (0 <? n) && (n <=? MAXORDINAL) then
    let '(y, m, dd) := ord2ymd n in
    Ok (mk y m dd (hour d) (minute d) (second d) (microsecond d))
  else Raise OverflowError.

(** Comparison: the field tuples, compared lexicographically. *)
Definition fields (d : datetime) : list Z :=
  [year d; month d; day d; hour d; minute d; second d; microsecond d].

Fixpoint lex (a b : list Z) : comparison :=
  match a, b with
  | [], [] => Eq
  | [], _ :: _ => Lt
  | _ :: _, [] => Gt
  | x :: a', y :: b' =>
      match x ?= y with
      | Eq => lex a' b'
      | c => c
      end
  end.

Definition compare (a b : datetime) : comparison :=
  lex (fields a) (fields b).

Definition eqb (a b : datetime) : bool :=
  match compare a b with Eq => true | _ => false end.

Definition ltb (a b : datetime) : bool :=
  match compare a b with Lt => true | _ => false end.

Definition date_of (d : datetime) : Z * Z * Z := (year d, month d, day d).

Definition time_of (d : datetime) : Z * Z * Z * Z :=
  (hour d, minute d, second d, microsecond d).

End DT.

Import DT(datetime).

(** ** [datetime.strptime(s, "%m/%d/%Y")]

    The format compiles to the regular expression
    [(?P<m>1[0-2]|0[1-9]|[1-9])/(?P<d>3[0-1]|[1-2]\d|0[1-9]|[1-9]| [1-9])/(?P<Y>\d\d\d\d)],
    matched at the start of the string by a backtracking matcher; text
    left after the match, a string that does not match, and a date the
    constructor refuses all raise [ValueError].  A sub-pattern is modelled
    by the list of its matches in the order the matcher tries them, each
    with the text that is left. *)

Module Strptime.
Import Str.

Definition matches (A : Type) : Type := list (A * string).

Definition bind {A B} (m : matches A) (k : A -> string -> matches B)
  : matches B :=
  flat_map (fun p => k (fst p) (snd p)) m.

Definition in_range (lo hi : Z) (c : ascii) : bool :=
  (lo <=? code c) && (code c <=? hi).

(** one character in the range of code points [lo, hi] *)
Definition one (lo hi : Z) (s : string) : matches Z :=
  match s with
  | String c r => if in_range lo hi c then [(digit_val c, r)] else []
  | EmptyString => []
  end.

(** the literal character [c] *)
Definition lit (c : ascii) (s : string) : matches unit :=
  match s with
  | String c' r => if Ascii.eqb c c' then [(tt, r)] else []
  | EmptyString => []
  end.

(** two characters read as a two-digit number *)
Definition two (lo1 hi1 lo2 hi2 : Z) (s : string) : matches Z :=
  bind (one lo1 hi1 s) (fun a r =>
  bind (one lo2 hi2 r) (fun b r' => [(10 * a + b, r')])).

(** [1[0-2]|0[1-9]|[1-9]] *)
Definition re_m (s : string) : matches Z :=
  two 49 49 48 50 s ++ two 48 48 49 57 s ++ one 49 57 s.

(** [3[0-1]|[1-2]\d|0[1-9]|[1-9]| [1-9]] *)
Definition re_d (s : string) : matches Z :=
  two 51 51 48 49 s ++ two 49 50 48 57 s ++ two 48 48 49 57 s
  ++ one 49 57 s
  ++ bind (lit " " s) (fun _ r => one 49 57 r).

(** [\d\d\d\d] *)
Definition re_Y (s : string) : matches Z :=
  bind (two 48 57 48 57 s) (fun a r =>
  bind (two 48 57 48 57 r) (fun b r' => [(100 * a + b, r')])).

Definition re_mdY (s : string) : matches (Z * Z * Z) :=
  bind (re_m s) (fun m r1 =>
  bind (lit "/" r1) (fun _ r2 =>
  bind (re_d r2) (fun d r3 =>
  bind (lit "/" r3) (fun _ r4 =>
  bind (re_Y r4) (fun y r5 => [((m, d, y), r5)]))))).

Definition strptime (s : string) : result datetime :=
  match re_mdY s with
  | [] => Raise ValueError
  | ((m, d, y), rest) :: _ =>
      match rest with
      | EmptyString =>
          if DT.valid_date y m d then Ok (DT.mk y m d 0 0 0 0)
          else Raise ValueError
      | String _ _ => Raise ValueError
      end
  end.

End Strptime.

(** ** [int(s)] for a string

    Whitespace around the literal is dropped, one sign is allowed, and the
    digits may be separated by single underscores.  Anything else raises
    [ValueError], as does a literal of more than [int_max_str_digits]
    digits.  The whitespace [int] drops is not that of [str.strip]: it is
    the whitespace of C (tab to carriage return, and the space) and the
    code points above 127 that [str.isspace] accepts; the separators
    0x1C-0x1F are refused. *)

Module PyInt.
Import Str.

(** [sys.int_info.default_max_str_digits] *)
Definition int_max_str_digits : Z := 4300.

Definition is_space (c : ascii) : bool :=
  let n := code c in
  ((9 <=? n) && (n <=? 13)) || (n =? 32) || (n =? 133) || (n =? 160).

Fixpoint skip_leading (s : string) : string :=
  match s with
  | EmptyString => EmptyString
  | String c r => if is_space c then skip_leading r else s
  end.

Fixpoint skip_trailing (s : string) : string :=
  match s with
  | EmptyString => EmptyString
  | String c r =>
      match skip_trailing r with
      | EmptyString => if is_space c then EmptyString else String c EmptyString
      | r' => String c r'
      end
  end.

(** the digits after the first: value so far, digits seen so far,
    whether the previous character was an underscore *)
Fixpoint digits_from (acc cnt : Z) (prev_us : bool) (s : string)
  : option (Z * Z) :=
  match s with
  | EmptyString => if prev_us then None else Some (acc, cnt)
  | String c r =>
      if is_digit c then digits_from (10 * acc + digit_val c) (cnt + 1) false r
      else if Ascii.eqb c "_" then
             if prev_us then None else digits_from acc cnt true r
           else None
  end.

Definition digits (s : string) : option (Z * Z) :=
  match s with
  | String c r => if is_digit c then digits_from (digit_val c) 1 false r
                  else None
  | EmptyString => None
  end.

Definition signed (s : string) : bool * string :=
  match s with
  | String "+" r => (false, r)
  | String "-" r => (true, r)
  | _ => (false, s)
  end.

(** the value and the number of digits of a decimal integer literal,
    [None] when [s] is not one *)
Definition literal (s : string) : option (Z * Z) :=
  let '(neg, body) := signed (skip_trailing (skip_leading s)) in
  match digits body with
  | Some (n, cnt) => Some (if neg then - n else n, cnt)
  | None => None
  end.

Definition int (s : string) : result Z :=
  match literal s with
  | Some (n, cnt) =>
      if int_max_str_digits <? cnt then Raise ValueError else Ok n
  | None => Raise ValueError
  end.

End PyInt.

(** ** [parse_due_date] *)

Definition weekdays : list string :=
  ["monday"; "tuesday"; "wednesday"; "thursday"; "friday"; "saturday";
   "sunday"].

(** [now] is the value [datetime.now()] returns at line 35. *)
Definition parse_due_date (now : datetime) (due_string : string)
  : result (option datetime) :=
  match due_string with
  | EmptyString => Ok None
  | String _ _ =>
      match Strptime.strptime due_string with
      | Ok d => Ok (Some d)
      | Raise ValueError =>
          let due_string := Str.lower (Str.strip due_string) in
          let today := now in
          if String.eqb due_string "tomorrow" then
            match DT.add_days today 1 with
            | Ok d => Ok (Some d)
            | Raise e => Raise e
            end
          else
            match Str.index due_string weekdays with
            | Some target_index =>
                let today_index := DT.weekday today in
                let r := (target_index - today_index + 7) mod 7 in
                let delta_days := if r =? 0 then 7 else r in
                match DT.add_days today delta_days with
                | Ok d => Ok (Some d)
                | Raise e => Raise e
                end
            | None => Ok None
            end
      | Raise e => Raise e
      end
  end.

(** ** [list.sort(key=...)] and [sorted(..., key=...)]

    Python's sort is stable and compares keys with [<] only.  The result
    of a stable sort is determined by the input, so it is modelled by the
    stable insertion sort: an element goes in front of the first element
    whose key is not below its own. *)

Section Sort.
Context {A K : Type} (ltb : K -> K -> bool) (key : A -> K).

Fixpoint insert (x : A) (l : list A) : list A :=
  match l with
  | [] => [x]
  | y :: r => if ltb (key y) (key x) then y :: insert x r else x :: l
  end.

Fixpoint sort (l : list A) : list A :=
  match l with
  | [] => []
  | x :: r => insert x (sort r)
  end.
End Sort.

(** ** [Task] *)

Record Task : Type := mkTask {
  name : string;
  priority : Z;
  id : Z;
  created : datetime;
  due_date : option datetime;
  completed : option datetime
}.

(** [Task(name, priority, due_date)]; [uuid] is the value of
    [uuid.uuid4().int] and [now] the value of [datetime.now()]. *)
Definition Task_init (uuid : Z) (now : datetime)
    (name : string) (priority : Z) (due_date : option datetime) : Task :=
  mkTask name priority uuid now due_date None.

Definition mark_completed (now : datetime) (t : Task) : Task :=
  mkTask (name t) (priority t) (id t) (created t) (due_date t) (Some now).

Definition is_done (t : Task) : bool :=
  match completed t with Some _ => true | None => false end.

(** The key of the three listings,
    [(t.due_date or datetime.max, -t.priority)]; a [datetime] is never
    falsy, so [or] picks [datetime.max] exactly when the due date is
    [None]. *)
Definition sort_key (t : Task) : datetime * Z :=
  (match due_date t with Some d => d | None => DT.max end, - priority t).

(** [<] on two such tuples: the first components that differ decide. *)
Definition key_ltb (a b : datetime * Z) : bool :=
  if DT.eqb (fst a) (fst b) then snd a <? snd b else DT.ltb (fst a) (fst b).

Definition sort_tasks : list Task -> list Task := sort key_ltb sort_key.

Definition sort_created : list Task -> list Task := sort DT.ltb created.

(** ** [pickle]

    The serialised form is opaque.  What the program relies on is the
    contract of the module: loading what was dumped gives the dumped
    collection back.  [loads] is [None] on a blob it cannot read. *)

Record Pickle : Type := {
  blob : Type;
  dumps : list Task -> blob;
  loads : blob -> option (list Task);
  loads_dumps : forall l, loads (dumps l) = Some l
}.

(** ** [Tasks] *)

(** What the program prints, one constructor per [print] group; a table
    stands for its header and one row per task, in order.  The text of a
    row (the columns, the age from [age_in_days], [strftime]) is
    formatting and is not modelled: a row is the task it shows. *)
Inductive output : Type :=
| Created (task_id : Z)
| Completed (task_id : Z)
| Deleted (task_id : Z)
| NotFound
| ListTable (rows : list Task)
| ReportTable (rows : list Task)
| QueryTable (rows : list Task).

Module Tasks.
Section WithPickle.
Context (P : Pickle).

(** [tasks] is [self.tasks]; [file] is the content of [PICKLE_FILE],
    [None] when the file does not exist; [stdout] is what was printed so
    far.  The objects of [self.tasks] are distinct (a task enters the
    list once, from [add] or from the pickle), so changing the object
    found in the list is changing the list at that position. *)
Record world : Type := mkWorld {
  tasks : list Task;
  file : option (blob P);
  stdout : list output
}.

Definition print (o : output) (w : world) : world :=
  mkWorld (tasks w) (file w) (stdout w ++ [o]).

Definition set_tasks (l : list Task) (w : world) : world :=
  mkWorld l (file w) (stdout w).

(** [Tasks()] *)
Definition init (w : world) : result unit * world :=
  let w := set_tasks [] w in
  match file w with
  | Some b =>
      match loads P b with
      | Some l => (Ok tt, set_tasks (sort_created l) w)
      | None => (Raise UnpicklingError, w)
      end
  | None => (Ok tt, set_tasks (sort_created (tasks w)) w)
  end.

Definition pickle_tasks (w : world) : world :=
  mkWorld (tasks w) (Some (dumps P (tasks w))) (stdout w).

(** [uuid], [now_due] and [now_created] are the values of
    [uuid.uuid4().int] and of the two readings of the clock. *)
Definition add (uuid : Z) (now_due now_created : datetime)
    (name : string) (due : option string) (priority : Z) (w : world)
  : result unit * world :=
  let parsed :=
    match due with
    | Some (String c r) => parse_due_date now_due (String c r)
    | _ => Ok None
    end in
  match parsed with
  | Raise e => (Raise e, w)
  | Ok due_date =>
      let task := Task_init uuid now_created name priority due_date in
      let w := set_tasks (tasks w ++ [task]) w in
      let w := pickle_tasks w in
      (Ok tt, print (Created (id task)) w)
  end.

Definition active (l : list Task) : list Task :=
  filter (fun t => negb (is_done t)) l.

Definition list_rows (w : world) : list Task :=
  sort_tasks (active (tasks w)).

Definition list (w : world) : result unit * world :=
  (Ok tt, print (ListTable (list_rows w)) w).

Definition report_rows (w : world) : Datatypes.list Task :=
  sort_tasks (tasks w).

Definition report (w : world) : result unit * world :=
  (Ok tt, print (ReportTable (report_rows w)) w).

Definition has_id (task_id : Z) (t : Task) : bool := id t =? task_id.

(** the change made through the object that [next] found *)
Fixpoint update_first (p : Task -> bool) (f : Task -> Task)
    (l : Datatypes.list Task) : Datatypes.list Task :=
  match l with
  | [] => []
  | t :: r => if p t then f t :: r else t :: update_first p f r
  end.

Definition done (now : datetime) (task_id : string) (w : world)
  : result unit * world :=
  match PyInt.int task_id with
  | Raise e => (Raise e, w)
  | Ok task_id =>
      match find (has_id task_id) (tasks w) with
      | Some task =>
          let w := set_tasks
                     (update_first (has_id task_id) (mark_completed now)
                        (tasks w)) w in
          let w := pickle_tasks w in
          (Ok tt, print (Completed (id task)) w)
      | None => (Ok tt, print NotFound w)
      end
  end.

Definition delete (task_id : string) (w : world) : result unit * world :=
  match PyInt.int task_id with
  | Raise e => (Raise e, w)
  | Ok task_id =>
      let original_len := List.length (tasks w) in
      let w := set_tasks
                 (filter (fun t => negb (id t =? task_id)) (tasks w)) w in
      if (List.length (tasks w) <? original_len)%nat then
        let w := pickle_tasks w in
        (Ok tt, print (Deleted task_id) w)
      else (Ok tt, print NotFound w)
  end.

Definition matches_any (terms : Datatypes.list string) (t : Task) : bool :=
  existsb (fun term => Str.contains (Str.lower term) (Str.lower (name t)))
          terms.

Definition query_rows (terms : Datatypes.list string) (w : world)
  : Datatypes.list Task :=
  sort_tasks
    (filter (fun t => negb (is_done t) && matches_any terms t) (tasks w)).

Definition query (terms : Datatypes.list string) (w : world)
  : result unit * world :=
  (Ok tt, print (QueryTable (query_rows terms w)) w).

End WithPickle.
End Tasks.

(** ** [str(n)] for an int, as in [f"{task.id}"] and [f"{age.days}d"]

    The decimal numeral, with a minus sign for a negative number.  (Like
    [int], [str] refuses numbers of more than [int_max_str_digits]
    digits; the ids and day counts of this program are far below.) *)

Definition str_int (n : Z) : string :=
  DecimalString.NilEmpty.string_of_int (Z.to_int n).

(** ** [age_in_days]

    The tables of the listings do not carry the text of the Age column;
    this is the function that computes it.  [now - created] is a
    [timedelta], normalised so that its seconds and
    microseconds are non-negative and below a day; [days] is what is
    left, the floor of the difference in days.  [now] is the value
    [datetime.now()] returns at line 16. *)

Definition seconds_of_day (d : datetime) : Z :=
  DT.second d + DT.minute d * 60 + DT.hour d * 3600.

(** [(a - b).days] *)
Definition sub_days (a b : datetime) : Z :=
  let days := DT.toordinal a - DT.toordinal b in
  let seconds := seconds_of_day a - seconds_of_day b in
  let microseconds := DT.microsecond a - DT.microsecond b in
  days + (seconds * 1000000 + microseconds) / (86400 * 1000000).

Definition age_in_days (now created : datetime) : string :=
  (str_int (sub_days now created) ++ "d")%string.

(** ** [main]

    The namespace [parse_args] returns, with the types the parser of
    lines 172-181 gives its attributes: a string or [None] for [--add],
    [--due], [--done] and [--delete]; one of the three choices for
    [--priority] (1 when it is not given); a flag for [--list] and
    [--report]; for [--query], [None] or a list of one or more terms. *)

Inductive Choice : Type := Choice1 | Choice2 | Choice3.

Definition choice_int (c : Choice) : Z :=
  match c with Choice1 => 1 | Choice2 => 2 | Choice3 => 3 end.

Record Args : Type := mkArgs {
  arg_add : option string;
  arg_due : option string;
  arg_priority : Choice;
  arg_list : bool;
  arg_report : bool;
  arg_done : option string;
  arg_delete : option string;
  arg_query : option (string * list string)
}.

(** What [parser.parse_args()] at line 183 makes of the command line.
    How [argparse] reads the words of the command line is not modelled;
    like the clock, what it gives is taken from outside.  It returns the
    namespace, or it ends the run: with [SystemExit(2)], after a message
    on standard error, when it refuses the command line (an unknown
    option, a missing value, a priority that is not 1, 2 or 3, [--query]
    without a term); with [SystemExit(0)], after the help text on
    standard output, for [-h] or [--help]. *)
Inductive Parsed : Type :=
| Refused
| Helped
| Returns (args : Args).

(** The values the run takes from outside: the id [uuid.uuid4().int]
    gives, and what [datetime.now()] returns in [parse_due_date], in
    [Task()] and in [mark_completed]. *)
Record Env : Type := mkEnv {
  env_uuid : Z;
  env_now_due : datetime;
  env_now_created : datetime;
  env_now_done : datetime
}.

(** What a run leaves: how it ended, the world, and whether the help
    text was written to standard output (by [parser.print_help()] at
    line 199, or by the parser for [--help]). *)
Record Run (P : Pickle) : Type := mkRun {
  outcome : result unit;
  after : Tasks.world P;
  usage : bool
}.

Arguments mkRun {P} outcome after usage.
Arguments outcome {P} r.
Arguments after {P} r.
Arguments usage {P} r.

(** truth of a string option: given and not empty *)
Definition given (s : option string) : option string :=
  match s with
  | Some (String c r) => Some (String c r)
  | _ => None
  end.

Definition ran {P : Pickle} (r : result unit * Tasks.world P) : Run P :=
  mkRun (fst r) (snd r) false.

Definition main (P : Pickle) (env : Env) (cl : Parsed) (w : Tasks.world P)
  : Run P :=
  match cl with
  | Refused => mkRun (Raise (SystemExit 2)) w false
  | Helped => mkRun (Raise (SystemExit 0)) w true
  | Returns args =>
      match Tasks.init P w with
      | (Raise e, w) => mkRun (Raise e) w false
      | (Ok _, w) =>
          match given (arg_add args) with
          | Some name =>
              ran (Tasks.add P (env_uuid env) (env_now_due env)
                     (env_now_created env) name (arg_due args)
                     (choice_int (arg_priority args)) w)
          | None =>
              if arg_list args then ran (Tasks.list P w)
              else if arg_report args then ran (Tasks.report P w)
              else
                match given (arg_done args) with
                | Some task_id =>
                    ran (Tasks.done P (env_now_done env) task_id w)
                | None =>
                    match given (arg_delete args) with
                    | Some task_id => ran (Tasks.delete P task_id w)
                    | None =>
                        match arg_query args with
                        | Some (term, terms) =>
                            ran (Tasks.query P (term :: terms) w)
                        | None => mkRun (Ok tt) w true
                        end
                    end
                end
          end
      end
  end.

(** * Vocabulary of the properties

    The orders, predicates and sample data the theorems are stated
    with. *)

(** ** Orders *)

(** [<] on lists of fields *)
Definition lex_ltb (a b : list Z) : bool :=
  match DT.lex a b with Lt => true | _ => false end.

(** The key tuple as one list of fields: [<] on keys is [<] on these. *)
Definition key_fields (k : datetime * Z) : list Z :=
  DT.fields (fst k) ++ [snd k].

(** [a] may stand before [b] in the result of a sort: [b]'s key is not
    below [a]'s *)
Definition in_order {A K : Type} (ltb : K -> K -> bool) (key : A -> K)
    (a b : A) : Prop :=
  ltb (key b) (key a) = false.

Definition due_or_max (t : Task) : datetime := fst (sort_key t).

(** [a] may stand before [b] in a listing: its due date (the maximum when
    absent) is earlier, or the due dates agree and its priority is not
    lower. *)
Definition listing_order (a b : Task) : Prop :=
  DT.ltb (due_or_max a) (due_or_max b) = true
  \/ (due_or_max a = due_or_max b /\ priority b <= priority a).

Definition created_order (a b : Task) : Prop :=
  DT.ltb (created b) (created a) = false.

Definition due_eqb (a b : option datetime) : bool :=
  match a, b with
  | Some x, Some y => DT.eqb x y
  | None, None => true
  | _, _ => false
  end.

(** [t] has the same (due_date, priority) as [a] *)
Definition same_due_priority (a t : Task) : bool :=
  due_eqb (due_date a) (due_date t) && (priority a =? priority t).

(** every task after an undated one is undated *)
Definition undated_after_dated (l : list Task) : Prop :=
  forall l1 u l2 t,
    l = l1 ++ u :: l2 -> due_date u = None -> In t l2 -> due_date t = None.

(** every task after an undated one is undated or due no earlier than
    [datetime.max], that is, being a valid datetime, due at
    [datetime.max] *)
Definition undated_after_earlier (l : list Task) : Prop :=
  forall l1 u l2 t d,
    l = l1 ++ u :: l2 -> due_date u = None -> In t l2 ->
    due_date t = Some d ->
    DT.ltb d DT.max = false /\ (DT.valid d = true -> d = DT.max).

(** ** The calendar, checked over one cycle *)

(** a check of [f] on [base, base + 2^bits) by halving *)
Fixpoint all_below (bits : nat) (base : Z) (f : Z -> bool) : bool :=
  match bits with
  | O => f base
  | S b => all_below b base f && all_below b (base + 2 ^ Z.of_nat b) f
  end.

(** One 400-year cycle, day by day: the date of day [r + 1] is a date
    of the years 1 to 400 and has ordinal [r + 1]. *)
Definition cycle_ok (r : Z) : bool :=
  if r <? DT.DI400Y then
    let '(y, m, d) := DT.ord2ymd (r + 1) in
    (DT.ymd2ord y m d =? r + 1)
    && (1 <=? y) && (y <=? 400) && ((145730 <? r) || (y <=? 399))
    && (1 <=? m) && (m <=? 12) && (1 <=? d)
    && (d <=? DT.days_in_month y m)
  else true.

(** ** The date parser *)

(** the number of days [parse_due_date] adds for weekday
    [target_index] *)
Definition delta_days (today_index target_index : Z) : Z :=
  let r := (target_index - today_index + 7) mod 7 in
  if r =? 0 then 7 else r.

(** the parser's result for the date [r] *)
Definition lift (r : result datetime) : result (option datetime) :=
  match r with Ok d => Ok (Some d) | Raise e => Raise e end.

Definition is_weekday_name (s : string) : Prop :=
  In (Str.lower (Str.strip s)) weekdays.

(** What the specification asks of a weekday name: the date [d] returned
    lies one to seven days after today, on the weekday named, seven days
    ahead when today is that weekday, and is never today's date. *)
Definition next_weekday (now : datetime) (s : string) (d : datetime) : Prop :=
  let k := DT.toordinal d - DT.toordinal now in
  1 <= k <= 7
  /\ nth_error weekdays (Z.to_nat (DT.weekday d))
     = Some (Str.lower (Str.strip s))
  /\ (DT.weekday now = DT.weekday d -> k = 7)
  /\ DT.date_of d <> DT.date_of now.

(** Dates written as MM/DD/YYYY, zero-padded. *)
Module Format.

Definition digit_char (n : Z) : ascii := ascii_of_N (Z.to_N (48 + n)).

Definition two_digits (n : Z) : string :=
  String (digit_char (n / 10)) (String (digit_char (n mod 10)) "").

Definition four_digits (n : Z) : string :=
  (two_digits (n / 100) ++ two_digits (n mod 100))%string.

(** the text of month [m], day [d], year [y] *)
Definition mdY (m d y : Z) : string :=
  (two_digits m ++ "/" ++ two_digits d ++ "/" ++ four_digits y)%string.

End Format.

(** ** Sample data *)

(** A Thursday afternoon, and the two ways of naming the day after. *)
Definition thursday : datetime := DT.mk 2025 1 9 14 30 0 0.
Definition friday_midnight : datetime := DT.mk 2025 1 10 0 0 0 0.
Definition friday_afternoon : datetime := DT.mk 2025 1 10 14 30 0 0.

(** The last day of year 9999, at noon: a Friday. *)
Definition last_day : datetime := DT.mk 9999 12 31 12 0 0 0.

(** pickling to memory: the blob is the collection itself *)
Definition memory_pickle : Pickle :=
  {| blob := list Task;
     dumps := fun l => l;
     loads := fun b => Some b;
     loads_dumps := fun l => eq_refl |}.

Definition due_at_max : Task :=
  mkTask "archive" 1 1 thursday (Some DT.max) None.

Definition someday : Task := mkTask "someday" 3 2 thursday None None.

(** The example of the specification: due dates {none, 2025-01-10,
    2025-01-10} with priorities {1, 2, 3}. *)
Definition low : Task := mkTask "low" 1 11 thursday None None.
Definition mid : Task :=
  mkTask "mid" 2 12 thursday (Some friday_midnight) None.
Definition high : Task :=
  mkTask "high" 3 13 thursday (Some friday_midnight) None.

Definition shelf : Tasks.world memory_pickle :=
  Tasks.mkWorld memory_pickle [low; mid; high] None [].

(** ** Text compared case aside

    What the specification calls a case-insensitive match, said without
    [str.lower]: two characters are the same letter when they are equal,
    or when one is an upper-case letter (A to Z, or an upper-case letter
    of the Latin-1 supplement) and the other is the lower-case letter 32
    code points after it.  Two texts are the same when they have the
    same length and the same letters; a term occurs in a name when a
    part of the name is the same text as the term. *)








(** ** Vocabulary of the further properties *)

(** the fields of a task that no operation changes *)
Definition fixed_fields (t : Task) : string * Z * Z * datetime * option datetime :=
  (name t, priority t, id t, created t, due_date t).

(** [t'] is [t] later in its life: the same task, and still completed if
    it was *)
Definition evolves (t t' : Task) : Prop :=
  fixed_fields t = fixed_fields t' /\ (is_done t = true -> is_done t' = true).

(** what [add] makes of its [due] argument *)
Definition due_of (now : datetime) (due : option string)
  : result (option datetime) :=
  match due with
  | Some s => parse_due_date now s
  | None => Ok None
  end.

Definition other_id (n : Z) (t : Task) : bool := negb (id t =? n).

(** the time of day, in microseconds *)
Definition time_us (d : datetime) : Z :=
  seconds_of_day d * 1000000 + DT.microsecond d.

(** the number a decimal numeral denotes, read from the left with [acc]
    the value read so far *)
Fixpoint uint_value (d : Decimal.uint) (acc : Z) : Z :=
  match d with
  | Decimal.Nil => acc
  | Decimal.D0 l => uint_value l (10 * acc + 0)
  | Decimal.D1 l => uint_value l (10 * acc + 1)
  | Decimal.D2 l => uint_value l (10 * acc + 2)
  | Decimal.D3 l => uint_value l (10 * acc + 3)
  | Decimal.D4 l => uint_value l (10 * acc + 4)
  | Decimal.D5 l => uint_value l (10 * acc + 5)
  | Decimal.D6 l => uint_value l (10 * acc + 6)
  | Decimal.D7 l => uint_value l (10 * acc + 7)
  | Decimal.D8 l => uint_value l (10 * acc + 8)
  | Decimal.D9 l => uint_value l (10 * acc + 9)
  end.

Fixpoint all_chars (p : ascii -> bool) (s : string) : bool :=
  match s with
  | EmptyString => true
  | String c r => p c && all_chars p r
  end.

Definition not_space (c : ascii) : bool := negb (PyInt.is_space c).

(** the collection a new run starts with *)
Definition loaded (P : Pickle) (w : Tasks.world P) : list Task :=
  Tasks.tasks P (snd (Tasks.init P w)).

(** a run that reads the store and changes nothing: [--list], [--report],
    [--query] or no command at all *)
Definition reads_only (args : Args) : Prop :=
  given (arg_add args) = None
  /\ (arg_list args = true \/ arg_report args = true
      \/ (given (arg_done args) = None /\ given (arg_delete args) = None)).

(** what an operation may do to the file: leave it, or - succeeding -
    write the whole collection; failing, it leaves the world as it was *)
Definition kept_or_saved (P : Pickle) (w : Tasks.world P)
    (r : result unit * Tasks.world P) : Prop :=
  (Tasks.file P (snd r) = Tasks.file P w
   \/ (fst r = Ok tt
       /\ Tasks.file P (snd r) = Some (dumps P (Tasks.tasks P (snd r)))))
  /\ (fst r <> Ok tt -> snd r = w).





(** The commands of a namespace, in the order add, list, report, done,
    delete, query; an empty description or id is no command. *)
Inductive Command : Type :=
| DoAdd (name : string)
| DoList
| DoReport
| DoDone (task_id : string)
| DoDelete (task_id : string)
| DoQuery (terms : list string).

Definition commands_given (args : Args) : list Command :=
  match given (arg_add args) with Some name => [DoAdd name] | None => [] end
  ++ (if arg_list args then [DoList] else [])
  ++ (if arg_report args then [DoReport] else [])
  ++ match given (arg_done args) with
     | Some task_id => [DoDone task_id]
     | None => []
     end
  ++ match given (arg_delete args) with
     | Some task_id => [DoDelete task_id]
     | None => []
     end
  ++ match arg_query args with
     | Some (term, terms) => [DoQuery (term :: terms)]
     | None => []
     end.

(** the operation of the store that carries a command out *)
Definition carry_out (P : Pickle) (env : Env) (args : Args) (c : Command)
    (w : Tasks.world P) : result unit * Tasks.world P :=
  match c with
  | DoAdd name =>
      Tasks.add P (env_uuid env) (env_now_due env) (env_now_created env)
        name (arg_due args) (choice_int (arg_priority args)) w
  | DoList => Tasks.list P w
  | DoReport => Tasks.report P w
  | DoDone task_id => Tasks.done P (env_now_done env) task_id w
  | DoDelete task_id => Tasks.delete P task_id w
  | DoQuery terms => Tasks.query P terms w
  end.

(** what a command prints *)
Definition prints (c : Command) (o : output) : Prop :=
  match c, o with
  | DoAdd _, Created _ => True
  | DoList, ListTable _ => True
  | DoReport, ReportTable _ => True
  | DoDone _, Completed _ => True
  | DoDone _, NotFound => True
  | DoDelete _, Deleted _ => True
  | DoDelete _, NotFound => True
  | DoQuery _, QueryTable _ => True
  | _, _ => False
  end.

Definition add_and_list : Args :=
  mkArgs (Some "milk") None Choice1 true true (Some "12") (Some "12")
    (Some ("m", [])).

(** a file that holds the three tasks, and what two runs take from
    outside *)
Definition on_disk : Tasks.world memory_pickle :=
  Tasks.mkWorld memory_pickle [] (Some [low; mid; high]) [].

Definition no_args : Args :=
  mkArgs None None Choice1 false false None None None.

Definition add_milk : Args :=
  mkArgs (Some "milk") (Some "friday") Choice2 false false None None None.

Definition list_args : Args :=
  mkArgs None None Choice1 true false None None None.


Definition first_run : Env := mkEnv 14 thursday thursday thursday.

Definition second_run : Env :=
  mkEnv 15 friday_afternoon friday_afternoon friday_afternoon.

Definition milk : Task :=
  mkTask "milk" 2 14 thursday (Some friday_afternoon) None.

(** * Properties *)

(** ** Comparison of datetimes and of sort keys *)

Module DTFacts.
Import DT.

Lemma lex_refl a : lex a a = Eq.
Proof.
  induction a as [|x a IH]; simpl; [reflexivity|].
  now rewrite Z.compare_refl.
Qed.

Lemma lex_eq a : forall b, lex a b = Eq -> a = b.
Proof.
  induction a as [|x a IH]; intros [|y b] H; simpl in H;
    try discriminate; [reflexivity|].
  destruct (Z.compare_spec x y); try discriminate.
  subst. f_equal. now apply IH.
Qed.

Lemma lex_antisym a : forall b, lex b a = CompOpp (lex a b).
Proof.
  induction a as [|x a IH]; intros [|y b]; simpl; try reflexivity.
  rewrite (Z.compare_antisym x y).
  destruct (x ?= y); simpl; auto.
Qed.

Lemma lex_lt_trans a : forall b c,
  lex a b = Lt -> lex b c = Lt -> lex a c = Lt.
Proof.
  induction a as [|x a IH]; intros [|y b] [|z c] Hab Hbc; simpl in *;
    try discriminate; try reflexivity.
  destruct (Z.compare_spec x y); try discriminate;
    destruct (Z.compare_spec y z); try discriminate;
    destruct (Z.compare_spec x z); try lia; try reflexivity.
  eauto.
Qed.

Lemma lex_ltb_irrefl a : lex_ltb a a = false.
Proof. unfold lex_ltb. now rewrite lex_refl. Qed.

Lemma lex_ltb_asym a b : lex_ltb a b = true -> lex_ltb b a = false.
Proof.
  unfold lex_ltb. rewrite (lex_antisym a b).
  destruct (lex a b); simpl; congruence.
Qed.

Lemma lex_ltb_trans a b c :
  lex_ltb a b = true -> lex_ltb b c = true -> lex_ltb a c = true.
Proof.
  unfold lex_ltb. intros H1 H2.
  destruct (lex a b) eqn:E1; try discriminate.
  destruct (lex b c) eqn:E2; try discriminate.
  now rewrite (lex_lt_trans _ _ _ E1 E2).
Qed.

Lemma lex_ltb_total a b :
  lex_ltb a b = false -> lex_ltb b a = false -> a = b.
Proof.
  unfold lex_ltb. rewrite (lex_antisym a b). intros H1 H2.
  destruct (lex a b) eqn:E; simpl in *; try discriminate.
  now apply lex_eq.
Qed.

Lemma lex_ltb_negtrans a b c :
  lex_ltb a b = false -> lex_ltb b c = false -> lex_ltb a c = false.
Proof.
  intros H1 H2. destruct (lex_ltb a c) eqn:E; [|reflexivity].
  destruct (lex_ltb b a) eqn:E1.
  - rewrite (lex_ltb_trans _ _ _ E1 E) in H2. discriminate.
  - rewrite (lex_ltb_total _ _ H1 E1) in E. congruence.
Qed.

Lemma fields_inj a b : fields a = fields b -> a = b.
Proof.
  destruct a, b. unfold fields; simpl. intros H.
  injection H as -> -> -> -> -> -> ->. reflexivity.
Qed.

Lemma eqb_eq a b : eqb a b = true <-> a = b.
Proof.
  unfold eqb, compare. split.
  - destruct (lex (fields a) (fields b)) eqn:E; try discriminate.
    intros _. now apply fields_inj, lex_eq.
  - intros ->. now rewrite lex_refl.
Qed.

Lemma eqb_refl a : eqb a a = true.
Proof. now apply eqb_eq. Qed.

Lemma ltb_lex a b : ltb a b = lex_ltb (fields a) (fields b).
Proof. reflexivity. Qed.

Lemma ltb_irrefl a : ltb a a = false.
Proof. rewrite ltb_lex. apply lex_ltb_irrefl. Qed.

Lemma ltb_asym a b : ltb a b = true -> ltb b a = false.
Proof. rewrite !ltb_lex. apply lex_ltb_asym. Qed.

Lemma ltb_negtrans a b c :
  ltb a b = false -> ltb b c = false -> ltb a c = false.
Proof. rewrite !ltb_lex. apply lex_ltb_negtrans. Qed.

Lemma ltb_total a b : ltb a b = false -> ltb b a = false -> a = b.
Proof.
  rewrite !ltb_lex. intros H1 H2.
  now apply fields_inj, lex_ltb_total.
Qed.

Lemma days_in_month_max y m : days_in_month y m <= 31.
Proof.
  unfold days_in_month, DAYS_IN_MONTH.
  destruct ((m =? 2) && is_leap y); [lia|].
  repeat match goal with
         | |- context [match ?p with _ => _ end] => destruct p
         end; lia.
Qed.

(** [datetime.max] is the largest valid datetime. *)
Lemma valid_le_max d : valid d = true -> ltb max d = false.
Proof.
  unfold valid, valid_date, MAXYEAR. intros H.
  repeat (apply andb_true_iff in H as [H ?]).
  repeat match goal with
         | H : (_ <=? _) = true |- _ => apply Z.leb_le in H
         end.
  pose proof (days_in_month_max (year d) (month d)).
  destruct d as [y m dd hh mi ss us].
  cbn [year month day hour minute second microsecond] in *.
  unfold ltb, compare, fields, max.
  cbn [year month day hour minute second microsecond lex].
  repeat match goal with
         | |- context [?x ?= ?y] =>
             destruct (Z.compare_spec x y); try reflexivity; try lia
         end.
Qed.

End DTFacts.

Lemma key_ltb_lex a b :
  key_ltb a b = lex_ltb (key_fields a) (key_fields b).
Proof.
  destruct a as [d1 p1], b as [d2 p2].
  unfold key_ltb, key_fields, lex_ltb, DT.eqb, DT.ltb, DT.compare.
  destruct d1, d2; cbn [fst snd DT.fields app DT.lex
    DT.year DT.month DT.day DT.hour DT.minute DT.second DT.microsecond].
  repeat match goal with
         | |- context [?x ?= ?y] => destruct (x ?= y) eqn:?; try reflexivity
         end;
    unfold Z.ltb;
    repeat match goal with H : _ = _ |- _ => rewrite H end; reflexivity.
Qed.

Lemma key_fields_inj a b : key_fields a = key_fields b -> a = b.
Proof.
  destruct a as [d1 p1], b as [d2 p2]. destruct d1, d2.
  unfold key_fields, DT.fields; simpl. intros H.
  injection H as -> -> -> -> -> -> -> ->. reflexivity.
Qed.

Lemma key_ltb_irrefl a : key_ltb a a = false.
Proof. rewrite key_ltb_lex. apply DTFacts.lex_ltb_irrefl. Qed.

Lemma key_ltb_asym a b : key_ltb a b = true -> key_ltb b a = false.
Proof. rewrite !key_ltb_lex. apply DTFacts.lex_ltb_asym. Qed.

Lemma key_ltb_negtrans a b c :
  key_ltb a b = false -> key_ltb b c = false -> key_ltb a c = false.
Proof. rewrite !key_ltb_lex. apply DTFacts.lex_ltb_negtrans. Qed.

(** ** The stable sort *)

Section SortFacts.
Context {A K : Type} (ltb : K -> K -> bool) (key : A -> K).

Lemma insert_perm x l : Permutation (insert ltb key x l) (x :: l).
Proof.
  induction l as [|y r IH]; simpl; [reflexivity|].
  destruct (ltb (key y) (key x)); [|reflexivity].
  rewrite IH. apply perm_swap.
Qed.

Lemma sort_perm l : Permutation (sort ltb key l) l.
Proof.
  induction l as [|x r IH]; simpl; [reflexivity|].
  rewrite insert_perm. now apply perm_skip.
Qed.

(** Stability: the elements picked by a predicate whose members never
    compare below one another come out in the order they went in. *)
Lemma filter_insert (p : A -> bool) x l :
  (forall y, p x = true -> p y = true -> ltb (key y) (key x) = false) ->
  filter p (insert ltb key x l) = filter p (x :: l).
Proof.
  intros Hp. induction l as [|y r IH]; [reflexivity|].
  cbn [insert]. destruct (ltb (key y) (key x)) eqn:E; [|reflexivity].
  cbn [filter] in *. rewrite IH.
  destruct (p x) eqn:Ex; [|reflexivity].
  destruct (p y) eqn:Ey; [|reflexivity].
  rewrite (Hp y eq_refl Ey) in E. discriminate.
Qed.

Lemma filter_sort (p : A -> bool) l :
  (forall x y, p x = true -> p y = true -> ltb (key y) (key x) = false) ->
  filter p (sort ltb key l) = filter p l.
Proof.
  intros Hp. induction l as [|x r IH]; [reflexivity|].
  cbn [sort]. rewrite filter_insert by (intros; now apply Hp).
  cbn [filter]. now rewrite IH.
Qed.

Hypothesis ltb_asym : forall a b, ltb a b = true -> ltb b a = false.
Hypothesis ltb_negtrans :
  forall a b c, ltb a b = false -> ltb b c = false -> ltb a c = false.

Lemma insert_sorted x l :
  StronglySorted (in_order ltb key) l -> StronglySorted (in_order ltb key) (insert ltb key x l).
Proof.
  induction 1 as [|y r Hr IH Hy]; simpl.
  - repeat constructor.
  - destruct (ltb (key y) (key x)) eqn:E.
    + constructor; [exact IH|].
      rewrite (Forall_forall). intros z Hz.
      apply (Permutation_in _ (insert_perm x r)) in Hz.
      destruct Hz as [<-|Hz].
      * now apply ltb_asym.
      * rewrite Forall_forall in Hy. now apply Hy.
    + constructor; [now constructor|].
      constructor; [exact E|].
      rewrite Forall_forall in *. intros z Hz.
      unfold in_order in *. eapply ltb_negtrans; [apply Hy, Hz|exact E].
Qed.

Lemma sort_sorted l : StronglySorted (in_order ltb key) (sort ltb key l).
Proof.
  induction l as [|x r IH]; simpl; [constructor|].
  now apply insert_sorted.
Qed.

End SortFacts.

(** ** The shared listing order *)

Lemma in_order_listing a b :
  in_order key_ltb sort_key a b -> listing_order a b.
Proof.
  unfold in_order, listing_order, key_ltb, due_or_max.
  destruct (sort_key a) as [da pa] eqn:Ea, (sort_key b) as [db pb] eqn:Eb.
  assert (Hpa : pa = - priority a) by (unfold sort_key in Ea; congruence).
  assert (Hpb : pb = - priority b) by (unfold sort_key in Eb; congruence).
  cbn [fst snd]. destruct (DT.eqb db da) eqn:E; intros H.
  - apply DTFacts.eqb_eq in E. right. split; [congruence|].
    apply Z.ltb_ge in H. lia.
  - left. destruct (DT.ltb da db) eqn:E2; [reflexivity|].
    rewrite (DTFacts.ltb_total _ _ E2 H), DTFacts.eqb_refl in E.
    discriminate.
Qed.

Lemma StronglySorted_impl {A} (R S : A -> A -> Prop) l :
  (forall a b, R a b -> S a b) -> StronglySorted R l -> StronglySorted S l.
Proof.
  intros HRS. induction 1 as [|x r Hr IH Hx]; constructor; [exact IH|].
  rewrite Forall_forall in *. auto.
Qed.

Lemma StronglySorted_app_inv {A} (R : A -> A -> Prop) l1 x l2 :
  StronglySorted R (l1 ++ x :: l2) -> Forall (R x) l2.
Proof.
  induction l1 as [|y l1 IH]; simpl; intros H; inversion H; subst; auto.
Qed.

Lemma sort_tasks_sorted l : StronglySorted listing_order (sort_tasks l).
Proof.
  apply (StronglySorted_impl (in_order key_ltb sort_key)).
  - apply in_order_listing.
  - apply sort_sorted.
    + apply key_ltb_asym.
    + apply key_ltb_negtrans.
Qed.

Lemma same_due_priority_key a x y :
  same_due_priority a x = true -> same_due_priority a y = true ->
  sort_key x = sort_key y.
Proof.
  unfold same_due_priority, due_eqb, sort_key. intros Hx Hy.
  apply andb_true_iff in Hx as [Hx1 Hx2]. apply andb_true_iff in Hy as [Hy1 Hy2].
  apply Z.eqb_eq in Hx2, Hy2.
  destruct (due_date a), (due_date x), (due_date y); try discriminate;
    try (apply DTFacts.eqb_eq in Hx1, Hy1); f_equal; congruence.
Qed.

Lemma sort_tasks_stable a l :
  filter (same_due_priority a) (sort_tasks l)
  = filter (same_due_priority a) l.
Proof.
  apply filter_sort. intros x y Hx Hy.
  rewrite (same_due_priority_key a x y Hx Hy). apply key_ltb_irrefl.
Qed.

Lemma sort_tasks_undated l : undated_after_earlier (sort_tasks l).
Proof.
  intros l1 u l2 t d E Hu Ht Hd.
  assert (Hmax : DT.ltb d DT.max = false).
  { pose proof (sort_tasks_sorted l) as S. rewrite E in S.
    apply StronglySorted_app_inv in S. rewrite Forall_forall in S.
    specialize (S t Ht). unfold listing_order, due_or_max, sort_key in S.
    rewrite Hu, Hd in S. cbn [fst] in S. destruct S as [S|[S _]].
    - now apply DTFacts.ltb_asym.
    - subst d. apply DTFacts.ltb_irrefl. }
  split; [exact Hmax|]. intros Hv.
  apply DTFacts.ltb_total; [exact Hmax | now apply DTFacts.valid_le_max].
Qed.

Lemma init_sorted P w w' :
  Tasks.init P w = (Ok tt, w') ->
  StronglySorted created_order (Tasks.tasks P w').
Proof.
  unfold Tasks.init. cbn [Tasks.file Tasks.set_tasks Tasks.tasks].
  destruct (Tasks.file P w) as [b|].
  - destruct (loads P b) as [l|]; [|discriminate].
    intros [= <-]. cbn [Tasks.tasks].
    apply sort_sorted; [apply DTFacts.ltb_asym | apply DTFacts.ltb_negtrans].
  - intros [= <-]. constructor.
Qed.

(** C1 (as amended).  The order shared by [list], [report] and [query] is
    [sort_tasks]: its result holds the same tasks, is sorted by due date
    ascending with an absent due date standing for [datetime.max], then by
    priority descending, and keeps tasks of identical (due_date, priority)
    in the order of the collection, which [Tasks()] sorts by creation
    time.  An undated task is followed only by undated tasks and by tasks
    due no earlier than [datetime.max]. *)
Theorem listing_order_sorted_stable :
  (forall P w,
     Tasks.list P w
     = (Ok tt,
        Tasks.print P
          (ListTable (sort_tasks (Tasks.active (Tasks.tasks P w)))) w)
     /\ Tasks.report P w
        = (Ok tt,
           Tasks.print P (ReportTable (sort_tasks (Tasks.tasks P w))) w)
     /\ forall terms,
          Tasks.query P terms w
          = (Ok tt,
             Tasks.print P
               (QueryTable
                  (sort_tasks
                     (filter (fun t => negb (is_done t)
                                       && Tasks.matches_any terms t)
                             (Tasks.tasks P w)))) w))
  /\ (forall l,
        Permutation (sort_tasks l) l
        /\ StronglySorted listing_order (sort_tasks l)
        /\ (forall a, filter (same_due_priority a) (sort_tasks l)
                      = filter (same_due_priority a) l)
        /\ undated_after_earlier (sort_tasks l))
  /\ (forall P w w', Tasks.init P w = (Ok tt, w') ->
        StronglySorted created_order (Tasks.tasks P w')).
Proof.
  split; [|split].
  - intros P w. repeat split.
  - intros l. split; [apply sort_perm|].
    split; [apply sort_tasks_sorted|].
    split; [intros a; apply sort_tasks_stable | apply sort_tasks_undated].
  - apply init_sorted.
Qed.

(** C1, the claim as stated, fails for a task due at [datetime.max]: it
    ties with the undated tasks, and an undated task of higher priority
    is listed before it. *)
Lemma undated_before_dated_at_max :
  sort_tasks [due_at_max; someday] = [someday; due_at_max]
  /\ ~ undated_after_dated (sort_tasks [due_at_max; someday]).
Proof.
  split; [reflexivity|]. intros H.
  specialize (H [] someday [due_at_max] due_at_max eq_refl eq_refl
                (or_introl eq_refl)).
  discriminate.
Qed.

Example list_example :
  Tasks.list_rows memory_pickle (Tasks.mkWorld memory_pickle [low; mid; high] None [])
  = [high; mid; low].
Proof. reflexivity. Qed.

(** [listing_order_sorted_stable] at a concrete input. *)
Lemma listing_order_sorted_stable_witness :
  Permutation (sort_tasks [low; mid; high]) [low; mid; high]
  /\ StronglySorted listing_order (sort_tasks [low; mid; high])
  /\ StronglySorted created_order
       (Tasks.tasks memory_pickle
          (snd (Tasks.init memory_pickle
                  (Tasks.mkWorld memory_pickle [] (Some [low; mid; high]) [])))).
Proof.
  destruct listing_order_sorted_stable as (_ & H2 & H3).
  destruct (H2 [low; mid; high]) as (Hp & Hs & _).
  refine (conj Hp (conj Hs _)).
  apply (H3 memory_pickle
            (Tasks.mkWorld memory_pickle [] (Some [low; mid; high]) [])).
  reflexivity.
Defined.

(** ** The calendar: ordinals and dates *)

Module Calendar.
Import DT.

Lemma all_below_spec bits : forall base f,
  all_below bits base f = true ->
  forall x, base <= x < base + 2 ^ Z.of_nat bits -> f x = true.
Proof.
  induction bits as [|b IH]; intros base f H x Hx.
  - simpl in *. replace x with base by lia. exact H.
  - cbn [all_below] in H. apply andb_true_iff in H as [H1 H2].
    rewrite Nat2Z.inj_succ, Z.pow_succ_r in Hx by lia.
    destruct (Z_lt_ge_dec x (base + 2 ^ Z.of_nat b)).
    + apply (IH _ _ H1). lia.
    + apply (IH _ _ H2). lia.
Qed.

Lemma cycle_all : all_below 18 0 cycle_ok = true.
Proof. vm_compute. reflexivity. Qed.

Lemma cycle_spec r :
  0 <= r < DI400Y ->
  exists y m d,
    ord2ymd (r + 1) = (y, m, d) /\ ymd2ord y m d = r + 1
    /\ 1 <= y <= 400 /\ (r <= 145730 -> y <= 399)
    /\ 1 <= m <= 12 /\ 1 <= d <= days_in_month y m.
Proof.
  intros Hr.
  assert (H : cycle_ok r = true).
  { apply (all_below_spec 18 0 _ cycle_all). unfold DI400Y in Hr.
    change (2 ^ Z.of_nat 18) with 262144. lia. }
  unfold cycle_ok in H.
  destruct (r <? DI400Y) eqn:E; [|apply Z.ltb_ge in E; lia].
  destruct (ord2ymd (r + 1)) as [[y m] d].
  exists y, m, d.
  repeat (apply andb_true_iff in H as [H ?]).
  repeat match goal with
         | H : (_ <=? _) = true |- _ => apply Z.leb_le in H
         | H : (_ =? _) = true |- _ => apply Z.eqb_eq in H
         end.
  match goal with
  | H : (_ || _) = true |- _ => rename H into Hor
  end.
  repeat split; try assumption.
  apply orb_true_iff in Hor as [Hor|Hor];
    [apply Z.ltb_lt in Hor | apply Z.leb_le in Hor]; lia.
Qed.

Lemma is_leap_shift q y : is_leap (400 * q + y) = is_leap y.
Proof.
  unfold is_leap.
  replace ((400 * q + y) mod 4) with (y mod 4)
    by (replace (400 * q + y) with (y + (100 * q) * 4) by lia;
        now rewrite Z.mod_add).
  replace ((400 * q + y) mod 100) with (y mod 100)
    by (replace (400 * q + y) with (y + (4 * q) * 100) by lia;
        now rewrite Z.mod_add).
  replace ((400 * q + y) mod 400) with (y mod 400)
    by (replace (400 * q + y) with (y + q * 400) by lia;
        now rewrite Z.mod_add).
  reflexivity.
Qed.

Lemma days_before_year_shift q y :
  days_before_year (400 * q + y) = DI400Y * q + days_before_year y.
Proof.
  unfold days_before_year, DI400Y. cbv zeta.
  replace ((400 * q + y - 1) / 4) with (100 * q + (y - 1) / 4)
    by (replace (400 * q + y - 1) with ((y - 1) + (100 * q) * 4) by lia;
        rewrite Z.div_add; lia).
  replace ((400 * q + y - 1) / 100) with (4 * q + (y - 1) / 100)
    by (replace (400 * q + y - 1) with ((y - 1) + (4 * q) * 100) by lia;
        rewrite Z.div_add; lia).
  replace ((400 * q + y - 1) / 400) with (q + (y - 1) / 400)
    by (replace (400 * q + y - 1) with ((y - 1) + q * 400) by lia;
        rewrite Z.div_add; lia).
  lia.
Qed.

Lemma ymd2ord_shift q y m d :
  ymd2ord (400 * q + y) m d = DI400Y * q + ymd2ord y m d.
Proof.
  unfold ymd2ord, days_before_month.
  rewrite days_before_year_shift, is_leap_shift. lia.
Qed.

Lemma ord2ymd_cycle n :
  ord2ymd n =
  let '(y, m, d) := ord2ymd ((n - 1) mod DI400Y + 1) in
  (400 * ((n - 1) / DI400Y) + y, m, d).
Proof.
  assert (Hr : 0 <= (n - 1) mod DI400Y < DI400Y)
    by (apply Z.mod_pos_bound; reflexivity).
  unfold ord2ymd at 2. cbv zeta.
  replace ((n - 1) mod DI400Y + 1 - 1) with ((n - 1) mod DI400Y) by lia.
  rewrite (Z.div_small _ _ Hr), (Z.mod_small _ _ Hr).
  unfold ord2ymd. cbv zeta.
  set (r := (n - 1) mod DI400Y). set (q := (n - 1) / DI400Y).
  repeat match goal with
         | |- context [if ?c then _ else _] => destruct c
         end; f_equal; try f_equal; lia.
Qed.

Theorem ord2ymd_spec n :
  0 < n <= MAXORDINAL ->
  exists y m d,
    ord2ymd n = (y, m, d) /\ ymd2ord y m d = n
    /\ valid_date y m d = true.
Proof.
  intros Hn.
  assert (Hr : 0 <= (n - 1) mod DI400Y < DI400Y)
    by (apply Z.mod_pos_bound; reflexivity).
  destruct (cycle_spec _ Hr) as (y & m & d & E & Ho & Hy & Hy' & Hm & Hd).
  pose proof (Z.div_mod (n - 1) DI400Y ltac:(discriminate)) as Hdm.
  set (q := (n - 1) / DI400Y) in *. set (r := (n - 1) mod DI400Y) in *.
  assert (Hq : 0 <= q <= 24).
  { unfold MAXORDINAL, DI400Y in *. lia. }
  exists (400 * q + y), m, d. split; [|split].
  - rewrite ord2ymd_cycle. fold r q. now rewrite E.
  - rewrite ymd2ord_shift. lia.
  - unfold valid_date, days_in_month, MINYEAR, MAXYEAR.
    rewrite is_leap_shift. fold (days_in_month y m).
    assert (400 * q + y <= 9999).
    { destruct (Z.eq_dec q 24) as [->|]; [|lia].
      unfold MAXORDINAL, DI400Y in *. lia. }
    repeat (apply andb_true_iff; split); apply Z.leb_le; lia.
Qed.

Lemma days_before_year_nonneg y : 1 <= y -> 0 <= days_before_year y.
Proof.
  intros Hy. unfold days_before_year. cbv zeta.
  pose proof (Z.div_le_mono (y - 1) ((y - 1) * 25) 100 ltac:(lia) ltac:(lia)).
  replace ((y - 1) * 25 / 100) with ((y - 1) / 4) in *
    by (replace 100 with (25 * 4) by lia;
        rewrite Z.mul_comm, Z.div_mul_cancel_l by lia; reflexivity).
  pose proof (Z.div_pos (y - 1) 400 ltac:(lia) ltac:(lia)).
  lia.
Qed.

Lemma valid_toordinal d : valid d = true -> 1 <= toordinal d.
Proof.
  unfold valid, valid_date, toordinal, ymd2ord, days_before_month, MINYEAR.
  intros H. repeat (apply andb_true_iff in H as [H ?]).
  repeat match goal with
         | H : (_ <=? _) = true |- _ => apply Z.leb_le in H
         end.
  pose proof (days_before_year_nonneg (year d) ltac:(lia)).
  assert (0 <= DAYS_BEFORE_MONTH (month d)).
  { assert (Hm : month d = 1 \/ month d = 2 \/ month d = 3 \/ month d = 4
              \/ month d = 5 \/ month d = 6 \/ month d = 7 \/ month d = 8
              \/ month d = 9 \/ month d = 10 \/ month d = 11
              \/ month d = 12) by lia.
    repeat (destruct Hm as [->|Hm]; [simpl; lia|]). rewrite Hm. simpl. lia. }
  destruct ((2 <? month d) && is_leap (year d)); lia.
Qed.

End Calendar.

(** ** The date parser *)

Module ParseFacts.
Import Str Strptime.

Lemma digit_not_space c : is_digit c = true -> is_space c = false.
Proof.
  unfold is_digit, is_space. cbv zeta. intros H.
  apply andb_true_iff in H as [H1 H2]. apply Z.leb_le in H1, H2.
  repeat (apply orb_false_iff; split);
    try (apply andb_false_iff; right; apply Z.leb_gt; lia);
    apply Z.eqb_neq; lia.
Qed.

Lemma digit_lower c : is_digit c = true -> lower_char c = c.
Proof.
  unfold is_digit, lower_char. cbv zeta. intros H.
  apply andb_true_iff in H as [H1 H2]. apply Z.leb_le in H1, H2.
  replace ((65 <=? code c) && (code c <=? 90)) with false
    by (symmetry; apply andb_false_iff; left; apply Z.leb_gt; lia).
  replace (192 <=? code c) with false by (symmetry; apply Z.leb_gt; lia).
  reflexivity.
Qed.

Lemma rstrip_head c r :
  is_space c = false -> exists r', rstrip (String c r) = String c r'.
Proof.
  intros H. cbn [rstrip]. rewrite H. destruct (rstrip r); eauto.
Qed.

(** A string that starts with a digit keeps it through [strip] and
    [lower]. *)
Lemma strip_lower_head c r :
  is_digit c = true ->
  exists r', lower (strip (String c r)) = String c r'.
Proof.
  intros H. pose proof (digit_not_space c H) as Hs.
  unfold strip. cbn [lstrip]. rewrite Hs.
  destruct (rstrip_head c r Hs) as [r' ->].
  cbn [lower]. rewrite (digit_lower c H). eauto.
Qed.

Lemma one_head lo hi s v r :
  In (v, r) (one lo hi s) ->
  exists c, s = String c r /\ in_range lo hi c = true.
Proof.
  unfold one. destruct s as [|c s']; [intros []|].
  destruct (in_range lo hi c) eqn:E; [|intros []].
  intros [[= <- <-]|[]]. eauto.
Qed.

Lemma in_bind {A B} (m : matches A) (k : A -> string -> matches B) x :
  In x (bind m k) <-> exists a r, In (a, r) m /\ In x (k a r).
Proof.
  unfold bind. rewrite in_flat_map. split.
  - intros ([a r] & H1 & H2). eauto.
  - intros (a & r & H1 & H2). exists (a, r). auto.
Qed.

Lemma two_head lo1 hi1 lo2 hi2 s x :
  In x (two lo1 hi1 lo2 hi2 s) ->
  exists c r, s = String c r /\ in_range lo1 hi1 c = true.
Proof.
  unfold two. rewrite in_bind. intros (a & r & H & _).
  apply one_head in H as (c & -> & H). eauto.
Qed.

Lemma in_range_digit lo hi c :
  48 <= lo -> hi <= 57 -> in_range lo hi c = true -> is_digit c = true.
Proof.
  unfold in_range, is_digit. cbv zeta. intros Hlo Hhi H.
  apply andb_true_iff in H as [H1 H2]. apply Z.leb_le in H1, H2.
  apply andb_true_iff; split; apply Z.leb_le; lia.
Qed.

Lemma re_m_head s x :
  In x (re_m s) -> exists c r, s = String c r /\ is_digit c = true.
Proof.
  unfold re_m. rewrite !in_app_iff. intros [H|[H|H]].
  - apply two_head in H as (c & r & -> & H).
    exists c, r. split; [reflexivity|]. eapply in_range_digit; eauto; lia.
  - apply two_head in H as (c & r & -> & H).
    exists c, r. split; [reflexivity|]. eapply in_range_digit; eauto; lia.
  - destruct x as [v r]. apply one_head in H as (c & -> & H).
    exists c, r. split; [reflexivity|]. eapply in_range_digit; eauto; lia.
Qed.

(** [strptime] raises nothing but [ValueError]. *)
Lemma strptime_cases s :
  (exists d, strptime s = Ok d) \/ strptime s = Raise ValueError.
Proof.
  unfold strptime. destruct (re_mdY s) as [|[[[m d] y] [|c r]] l]; auto.
  destruct (DT.valid_date y m d); eauto.
Qed.

(** Text the format accepts starts with a digit. *)
Lemma strptime_head s d :
  strptime s = Ok d -> exists c r, s = String c r /\ is_digit c = true.
Proof.
  unfold strptime. destruct (re_mdY s) as [|x l] eqn:E; [discriminate|].
  intros _. assert (H : In x (re_mdY s)) by (rewrite E; now left).
  unfold re_mdY in H. apply in_bind in H as (m & r & H & _).
  eapply re_m_head; eauto.
Qed.

Lemma digit_first_index c r l :
  is_digit c = true ->
  Forall (fun w => exists c' r', w = String c' r' /\ is_digit c' = false) l ->
  index (String c r) l = None.
Proof.
  intros Hc. induction 1 as [|w l (c' & r' & -> & Hw) Hl IH]; [reflexivity|].
  cbn [index]. destruct (String.eqb_spec (String c r) (String c' r')) as [E|_].
  - injection E as -> _. congruence.
  - now rewrite IH.
Qed.

Lemma weekdays_letters :
  Forall (fun w => exists c' r', w = String c' r' /\ is_digit c' = false)
         weekdays.
Proof. repeat constructor; eexists _, _; split; reflexivity. Qed.

(** Text that reads as a weekday name or as "tomorrow" is refused by the
    format. *)
Lemma strptime_word s :
  lower (strip s) = "tomorrow" \/ index (lower (strip s)) weekdays <> None ->
  strptime s = Raise ValueError.
Proof.
  intros H. destruct (strptime_cases s) as [[d E]|E]; [|exact E].
  exfalso. apply strptime_head in E as (c & r & -> & Hc).
  destruct (strip_lower_head c r Hc) as [r' E]. rewrite E in H.
  destruct H as [H|H].
  - injection H as -> _. discriminate.
  - apply H. apply digit_first_index; [exact Hc | apply weekdays_letters].
Qed.

Lemma index_spec s l i :
  index s l = Some i ->
  0 <= i < Z.of_nat (List.length l) /\ nth_error l (Z.to_nat i) = Some s.
Proof.
  revert i. induction l as [|x l IH]; intros i; cbn [index]; [discriminate|].
  destruct (String.eqb_spec s x) as [->|_].
  - intros [= <-]. cbn. split; [lia|reflexivity].
  - destruct (index s l) as [j|]; [|discriminate]. intros [= <-].
    destruct (IH j eq_refl) as [Hj Hn]. cbn [List.length].
    split; [lia|].
    replace (Z.to_nat (Z.succ j)) with (S (Z.to_nat j)) by lia. exact Hn.
Qed.

Lemma index_none s l : index s l = None <-> ~ In s l.
Proof.
  induction l as [|x l IH]; cbn [index In]; [tauto|].
  destruct (String.eqb_spec s x) as [->|N].
  - split; [discriminate|]. intros H. exfalso. apply H. now left.
  - destruct (index s l); cbn.
    + split; [discriminate|]. intros H. exfalso.
      apply H. right. destruct IH as [_ IH].
      destruct (in_dec string_dec s l); [assumption|].
      now specialize (IH n).
    + split; [|reflexivity]. intros _ [E|H]; [congruence|].
      now apply IH.
Qed.

End ParseFacts.

Module DateArith.
Import DT Calendar.

(** [d + timedelta(days=k)] when the day reached is in range *)
Lemma add_days_ok d k :
  0 < toordinal d + k <= MAXORDINAL ->
  exists d',
    add_days d k = Ok d'
    /\ toordinal d' = toordinal d + k
    /\ time_of d' = time_of d
    /\ valid_date (year d') (month d') (day d') = true.
Proof.
  intros H. unfold add_days.
  replace ((0 <? toordinal d + k) && (toordinal d + k <=? MAXORDINAL))
    with true
    by (symmetry; apply andb_true_iff; split;
        [apply Z.ltb_lt | apply Z.leb_le]; lia).
  destruct (ord2ymd_spec _ H) as (y & m & dd & -> & Ho & Hv).
  eexists. split; [reflexivity|]. repeat split; assumption.
Qed.

Lemma add_days_overflow d k :
  MAXORDINAL < toordinal d + k -> add_days d k = Raise OverflowError.
Proof.
  intros H. unfold add_days.
  replace (toordinal d + k <=? MAXORDINAL) with false
    by (symmetry; apply Z.leb_gt; lia).
  now rewrite andb_false_r.
Qed.

Lemma valid_time_of d d' :
  valid d = true -> time_of d' = time_of d ->
  valid_date (year d') (month d') (day d') = true -> valid d' = true.
Proof.
  unfold valid, time_of. intros H [= -> -> -> ->] Hv. rewrite Hv.
  repeat (apply andb_true_iff in H as [H ?]).
  repeat (apply andb_true_iff; split); auto.
Qed.

Lemma date_of_toordinal d d' : date_of d = date_of d' -> toordinal d = toordinal d'.
Proof. unfold date_of, toordinal. now intros [= -> -> ->]. Qed.

Lemma delta_days_spec t i :
  0 <= i < 7 ->
  1 <= delta_days t i <= 7
  /\ (t mod 7 + delta_days t i) mod 7 = i
  /\ (delta_days t i = 7 <-> t mod 7 = i).
Proof.
  intros Hi. unfold delta_days. cbv zeta.
  destruct (Z.eqb_spec ((i - t + 7) mod 7) 0) as [E|E];
    Z.div_mod_to_equations; lia.
Qed.

End DateArith.

Module ParseEqns.
Import Str Strptime ParseFacts DateArith.

Lemma parse_empty now : parse_due_date now "" = Ok None.
Proof. reflexivity. Qed.

Lemma parse_date now s d :
  strptime s = Ok d -> parse_due_date now s = Ok (Some d).
Proof.
  intros H. destruct (strptime_head s d H) as (c & r & -> & _).
  unfold parse_due_date. now rewrite H.
Qed.

Lemma parse_tomorrow now s :
  lower (strip s) = "tomorrow" ->
  parse_due_date now s = lift (DT.add_days now 1).
Proof.
  intros H. destruct s as [|c r]; [discriminate|].
  unfold parse_due_date.
  rewrite (strptime_word (String c r)) by (now left).
  rewrite H. reflexivity.
Qed.

Lemma parse_weekday now s i :
  index (lower (strip s)) weekdays = Some i ->
  parse_due_date now s
  = lift (DT.add_days now (delta_days (DT.weekday now) i)).
Proof.
  intros H. destruct s as [|c r]; [discriminate|].
  unfold parse_due_date.
  rewrite (strptime_word (String c r)) by (right; congruence).
  destruct (String.eqb_spec (lower (strip (String c r))) "tomorrow") as [E|_].
  - rewrite E in H. discriminate.
  - rewrite H. reflexivity.
Qed.

End ParseEqns.

(** ** Dates written as MM/DD/YYYY *)

Module FormatFacts.
Import Str Strptime Format.

Lemma small_cases (P : Z -> Prop) lo n :
  (forall k, (k < n)%nat -> P (lo + Z.of_nat k)) ->
  forall x, lo <= x < lo + Z.of_nat n -> P x.
Proof.
  intros H x Hx. replace x with (lo + Z.of_nat (Z.to_nat (x - lo))) by lia.
  apply H. lia.
Qed.

Tactic Notation "cases_below" integer(n) :=
  let k := fresh "k" in let Hk := fresh "Hk" in
  intros k Hk;
  do n (destruct k as [|k];
        [intros; first [reflexivity | eexists; reflexivity]|]);
  exfalso; lia.

Lemma one_digit_char a r :
  0 <= a <= 9 -> one 48 57 (String (digit_char a) r) = [(a, r)].
Proof.
  intros Ha. revert r. pattern a.
  apply (small_cases _ 0 10); [|lia]. cases_below 10.
Qed.

Lemma re_Y_four y rest :
  0 <= y <= 9999 -> re_Y (four_digits y ++ rest) = [(y, rest)].
Proof.
  intros Hy. unfold four_digits, two_digits, re_Y, two. cbn [String.append].
  repeat (rewrite one_digit_char by (Z.div_mod_to_equations; lia);
          cbn [bind flat_map fst snd app]).
  do 2 f_equal. Z.div_mod_to_equations. lia.
Qed.

Lemma re_m_two m rest :
  1 <= m <= 12 ->
  exists tl, re_m (two_digits m ++ String "/" rest)
             = (m, String "/" rest) :: tl.
Proof.
  intros Hm. revert rest. pattern m.
  apply (small_cases _ 1 12); [|lia]. cases_below 12.
Qed.

Lemma re_d_two d rest :
  1 <= d <= 31 ->
  exists tl, re_d (two_digits d ++ String "/" rest)
             = (d, String "/" rest) :: tl.
Proof.
  intros Hd. revert rest. pattern d.
  apply (small_cases _ 1 31); [|lia]. cases_below 31.
Qed.

Lemma bind_cons {A B} (a : A) r tl (k : A -> string -> matches B) :
  bind ((a, r) :: tl) k = k a r ++ bind tl k.
Proof. reflexivity. Qed.

Lemma append_assoc (a b c : string) :
  ((a ++ b) ++ c = a ++ (b ++ c))%string.
Proof. induction a as [|x a IH]; simpl; [reflexivity|now rewrite IH]. Qed.

Lemma append_nil (a : string) : (a ++ "")%string = a.
Proof. induction a as [|x a IH]; simpl; [reflexivity|now rewrite IH]. Qed.

Lemma re_mdY_format m d y :
  1 <= m <= 12 -> 1 <= d <= 31 -> 0 <= y <= 9999 ->
  exists tl, re_mdY (mdY m d y) = ((m, d, y), "") :: tl.
Proof.
  intros Hm Hd Hy. unfold mdY, re_mdY.
  change ("/" ++ two_digits d ++ "/" ++ four_digits y)%string
    with (String "/" (two_digits d ++ String "/" (four_digits y))%string).
  destruct (re_m_two m (two_digits d ++ String "/" (four_digits y)) Hm)
    as [tl1 ->].
  rewrite bind_cons. cbn [lit Ascii.eqb Bool.eqb]. rewrite bind_cons.
  destruct (re_d_two d (four_digits y) Hd) as [tl2 ->].
  rewrite bind_cons. cbn [lit Ascii.eqb Bool.eqb]. rewrite bind_cons.
  rewrite <- (append_nil (four_digits y)), (re_Y_four y "" Hy).
  cbn. eexists. reflexivity.
Qed.

Theorem strptime_format m d y :
  DT.valid_date y m d = true ->
  strptime (mdY m d y) = Ok (DT.mk y m d 0 0 0 0).
Proof.
  intros Hv. pose proof Hv as H. unfold DT.valid_date in H.
  repeat (apply andb_true_iff in H as [H ?]).
  repeat match goal with
         | H : (_ <=? _) = true |- _ => apply Z.leb_le in H
         end.
  pose proof (DTFacts.days_in_month_max y m).
  unfold DT.MINYEAR, DT.MAXYEAR in *.
  destruct (re_mdY_format m d y) as [tl E]; try lia.
  unfold strptime. rewrite E, Hv. reflexivity.
Qed.

End FormatFacts.

(** ** What the parser returns, form by form *)

Lemma is_weekday_name_index s :
  is_weekday_name s ->
  exists i, Str.index (Str.lower (Str.strip s)) weekdays = Some i
            /\ 0 <= i < 7.
Proof.
  unfold is_weekday_name. intros Hs.
  destruct (Str.index (Str.lower (Str.strip s)) weekdays) as [i|] eqn:Ei;
    [|now apply ParseFacts.index_none in Ei].
  exists i. split; [reflexivity|].
  now destruct (ParseFacts.index_spec _ _ _ Ei) as [Hi _].
Qed.

Lemma is_weekday_name_dec s : {is_weekday_name s} + {~ is_weekday_name s}.
Proof. apply in_dec, string_dec. Qed.

(** A weekday name, while the day reached is in range. *)
Lemma parse_weekday_add now s i :
  Str.index (Str.lower (Str.strip s)) weekdays = Some i ->
  DT.valid now = true ->
  DT.toordinal now + delta_days (DT.weekday now) i <= DT.MAXORDINAL ->
  exists d,
    parse_due_date now s = Ok (Some d)
    /\ DT.toordinal d = DT.toordinal now + delta_days (DT.weekday now) i
    /\ DT.time_of d = DT.time_of now
    /\ DT.valid d = true.
Proof.
  intros Ei Hv Hmax.
  destruct (ParseFacts.index_spec _ _ _ Ei) as [Hi _].
  change (Z.of_nat (List.length weekdays)) with 7 in Hi.
  pose proof (Calendar.valid_toordinal now Hv) as H1.
  destruct (DateArith.delta_days_spec (DT.weekday now) i Hi) as (Hk & _).
  destruct (DateArith.add_days_ok now (delta_days (DT.weekday now) i)
              ltac:(lia)) as (d & Ed & Ho & Ht & Hd).
  exists d. rewrite (ParseEqns.parse_weekday now s i Ei), Ed.
  split; [reflexivity|]. split; [exact Ho|]. split; [exact Ht|].
  now apply (DateArith.valid_time_of now).
Qed.

(** A weekday name, when the day reached is after 9999-12-31. *)
Lemma parse_weekday_overflow now s i :
  Str.index (Str.lower (Str.strip s)) weekdays = Some i ->
  DT.MAXORDINAL < DT.toordinal now + delta_days (DT.weekday now) i ->
  parse_due_date now s = Raise OverflowError.
Proof.
  intros Ei H. rewrite (ParseEqns.parse_weekday now s i Ei).
  now rewrite DateArith.add_days_overflow.
Qed.

Lemma parse_tomorrow_ok now s :
  Str.lower (Str.strip s) = "tomorrow" ->
  DT.valid now = true ->
  DT.toordinal now + 1 <= DT.MAXORDINAL ->
  exists d,
    parse_due_date now s = Ok (Some d)
    /\ DT.toordinal d = DT.toordinal now + 1
    /\ DT.time_of d = DT.time_of now.
Proof.
  intros Hs Hv Hmax. pose proof (Calendar.valid_toordinal now Hv).
  destruct (DateArith.add_days_ok now 1 ltac:(lia)) as (d & Ed & Ho & Ht & _).
  exists d. rewrite (ParseEqns.parse_tomorrow now s Hs), Ed. auto.
Qed.

Lemma parse_tomorrow_overflow now s :
  Str.lower (Str.strip s) = "tomorrow" ->
  DT.MAXORDINAL < DT.toordinal now + 1 ->
  parse_due_date now s = Raise OverflowError.
Proof.
  intros Hs H. rewrite (ParseEqns.parse_tomorrow now s Hs).
  now rewrite DateArith.add_days_overflow.
Qed.

Lemma strptime_midnight s d :
  Strptime.strptime s = Ok d -> DT.time_of d = (0, 0, 0, 0).
Proof.
  unfold Strptime.strptime.
  destruct (Strptime.re_mdY s) as [|[[[m dd] y] [|c r]] l]; try discriminate.
  destruct (DT.valid_date y m dd); [|discriminate].
  now intros [= <-].
Qed.

Lemma add_days_time d k d' :
  DT.add_days d k = Ok d' -> DT.time_of d' = DT.time_of d.
Proof.
  unfold DT.add_days.
  destruct ((0 <? DT.toordinal d + k) && (DT.toordinal d + k <=? DT.MAXORDINAL));
    [|discriminate].
  destruct (DT.ord2ymd (DT.toordinal d + k)) as [[y m] dd].
  now intros [= <-].
Qed.

Lemma parse_word_time now s d :
  Str.lower (Str.strip s) = "tomorrow" \/ is_weekday_name s ->
  parse_due_date now s = Ok (Some d) -> DT.time_of d = DT.time_of now.
Proof.
  intros [Hs|Hs].
  - rewrite (ParseEqns.parse_tomorrow now s Hs).
    destruct (DT.add_days now 1) as [d'|] eqn:E; [|discriminate].
    intros [= <-]. now apply add_days_time in E.
  - destruct (is_weekday_name_index s Hs) as (i & Ei & _).
    rewrite (ParseEqns.parse_weekday now s i Ei).
    destruct (DT.add_days now _) as [d'|] eqn:E; [|discriminate].
    intros [= <-]. now apply add_days_time in E.
Qed.

Lemma parse_word_ok now s :
  Str.lower (Str.strip s) = "tomorrow" \/ is_weekday_name s ->
  DT.valid now = true -> DT.toordinal now + 7 <= DT.MAXORDINAL ->
  exists d, parse_due_date now s = Ok (Some d)
            /\ DT.time_of d = DT.time_of now.
Proof.
  intros [Hs|Hs] Hv Hmax.
  - destruct (parse_tomorrow_ok now s Hs Hv ltac:(lia)) as (d & E & _ & Ht).
    eauto.
  - destruct (is_weekday_name_index s Hs) as (i & Ei & Hi).
    destruct (DateArith.delta_days_spec (DT.weekday now) i Hi) as (Hk & _).
    destruct (parse_weekday_add now s i Ei Hv ltac:(lia))
      as (d & E & _ & Ht & _).
    eauto.
Qed.

Lemma midnight_first a b :
  due_date a = Some friday_midnight -> due_date b = Some friday_afternoon ->
  due_or_max a <> due_or_max b /\ sort_tasks [b; a] = [a; b].
Proof.
  intros Ha Hb. unfold due_or_max, sort_tasks, sort_key.
  cbn [sort insert]. unfold sort_key, key_ltb. rewrite Ha, Hb. cbn [fst snd].
  split; [discriminate|reflexivity].
Qed.

(** ** The claims about the parser *)

(** C2 (as amended).  For every weekday name (full name, any case, with
    surrounding whitespace) and every valid [now], the parser returns a
    date one to seven days after today whose weekday is the one named,
    seven days after when today is that weekday, never today's date, with
    the time of day of [now]; or else it raises [OverflowError], which
    happens only in the last seven days of year 9999. *)
Theorem weekday_next_occurrence now s :
  is_weekday_name s ->
  DT.valid now = true ->
  (exists d,
     parse_due_date now s = Ok (Some d)
     /\ next_weekday now s d
     /\ DT.time_of d = DT.time_of now
     /\ DT.valid d = true)
  \/ (parse_due_date now s = Raise OverflowError
      /\ DT.MAXORDINAL < DT.toordinal now + 7).
Proof.
  intros Hs Hv. destruct (is_weekday_name_index s Hs) as (i & Ei & Hi).
  destruct (ParseFacts.index_spec _ _ _ Ei) as [_ Hn].
  destruct (DateArith.delta_days_spec (DT.weekday now) i Hi) as (Hk & Hm & H7).
  set (k := delta_days (DT.weekday now) i) in *.
  destruct (Z_le_gt_dec (DT.toordinal now + k) DT.MAXORDINAL) as [Hmax|Hmax].
  2:{ right. split; [|lia]. apply (parse_weekday_overflow now s i Ei).
      fold k. lia. }
  left.
  destruct (parse_weekday_add now s i Ei Hv Hmax) as (d & Ed & Ho & Ht & Hd).
  fold k in Ho.
  exists d. split; [exact Ed|]. split; [|split; assumption].
  assert (Hw : DT.weekday d = i).
  { unfold DT.weekday in *. rewrite Ho.
    rewrite Z.mod_mod in Hm by lia. rewrite <- Hm.
    rewrite Zplus_mod_idemp_l. f_equal. lia. }
  unfold next_weekday. cbv zeta. rewrite Ho, Hw.
  replace (DT.toordinal now + k - DT.toordinal now) with k by lia.
  repeat split; try lia; try assumption.
  - intros E. apply H7. unfold DT.weekday in *. rewrite Z.mod_mod by lia.
    exact E.
  - intros E. apply DateArith.date_of_toordinal in E. lia.
Qed.

(** C2, the claim as stated, fails on the last day of year 9999: adding
    seven days leaves the range of [datetime] and the parser raises.  (And
    on a Thursday, "friday" is one day ahead: the bounds 1 and 7 are
    reached.) *)
Lemma weekday_overflows_at_last_day :
  is_weekday_name "friday"
  /\ DT.valid last_day = true
  /\ parse_due_date last_day "friday" = Raise OverflowError
  /\ (~ exists d, parse_due_date last_day "friday" = Ok (Some d)
                  /\ next_weekday last_day "friday" d)
  /\ parse_due_date thursday "friday" = Ok (Some friday_afternoon)
  /\ DT.toordinal friday_afternoon - DT.toordinal thursday = 1.
Proof.
  split; [unfold is_weekday_name; vm_compute; tauto|].
  split; [reflexivity|]. split; [reflexivity|].
  split; [|split; reflexivity].
  intros (d & H & _). vm_compute in H. discriminate.
Qed.

(** [weekday_next_occurrence] at a concrete input. *)
Lemma weekday_next_occurrence_witness :
  is_weekday_name "  FriDay "
  /\ DT.valid thursday = true
  /\ exists d,
       parse_due_date thursday "  FriDay " = Ok (Some d)
       /\ next_weekday thursday "  FriDay " d
       /\ DT.time_of d = DT.time_of thursday
       /\ DT.valid d = true.
Proof.
  assert (H1 : is_weekday_name "  FriDay ")
    by (unfold is_weekday_name; vm_compute; tauto).
  assert (H2 : DT.valid thursday = true) by reflexivity.
  refine (conj H1 (conj H2 _)).
  destruct (weekday_next_occurrence thursday "  FriDay " H1 H2) as [H|[H _]].
  - exact H.
  - vm_compute in H. discriminate.
Defined.

(** C8.  For every valid (month, day, year), parsing the text
    MM/DD/YYYY gives exactly that calendar date (at midnight), whatever
    the clock says. *)
Theorem parse_mdY_exact now m d y :
  DT.valid_date y m d = true ->
  parse_due_date now (Format.mdY m d y) = Ok (Some (DT.mk y m d 0 0 0 0)).
Proof.
  intros H. apply ParseEqns.parse_date. now apply FormatFacts.strptime_format.
Qed.

(** [parse_mdY_exact] at a concrete input. *)
Lemma parse_mdY_exact_witness :
  DT.valid_date 2024 2 29 = true
  /\ Format.mdY 2 29 2024 = "02/29/2024"
  /\ parse_due_date thursday (Format.mdY 2 29 2024)
     = Ok (Some (DT.mk 2024 2 29 0 0 0 0)).
Proof.
  refine (conj eq_refl (conj eq_refl (parse_mdY_exact _ 2 29 2024 eq_refl))).
Defined.

(** C6 (as amended).  For every string and every valid [now] the parser
    returns without raising, except that "tomorrow" and the weekday names
    can raise [OverflowError] in the last seven days of year 9999; and
    for every [now], the empty string and any text that is neither a date
    of the MM/DD/YYYY form, nor "tomorrow", nor a weekday name give "no
    due date". *)
Theorem parse_due_date_no_error :
  (forall now s,
     DT.valid now = true ->
     (exists r, parse_due_date now s = Ok r)
     \/ (parse_due_date now s = Raise OverflowError
         /\ DT.MAXORDINAL < DT.toordinal now + 7
         /\ (Str.lower (Str.strip s) = "tomorrow" \/ is_weekday_name s)))
  /\ (forall now, parse_due_date now "" = Ok None)
  /\ (forall now s,
        (forall d, Strptime.strptime s <> Ok d) ->
        Str.lower (Str.strip s) <> "tomorrow" ->
        ~ is_weekday_name s ->
        parse_due_date now s = Ok None).
Proof.
  assert (Hnone : forall now s,
            (forall d, Strptime.strptime s <> Ok d) ->
            Str.lower (Str.strip s) <> "tomorrow" ->
            ~ is_weekday_name s ->
            parse_due_date now s = Ok None).
  { intros now s Hd Ht Hw. destruct s as [|c r]; [reflexivity|].
    unfold parse_due_date.
    destruct (ParseFacts.strptime_cases (String c r)) as [[d E]|E];
      [now apply Hd in E|]. rewrite E.
    destruct (String.eqb_spec (Str.lower (Str.strip (String c r))) "tomorrow");
      [contradiction|].
    apply ParseFacts.index_none in Hw. now rewrite Hw. }
  split; [|split; [reflexivity | exact Hnone]].
  intros now s Hv.
  destruct (ParseFacts.strptime_cases s) as [[d E]|E].
  { left. rewrite (ParseEqns.parse_date now s d E). eauto. }
  destruct (string_dec (Str.lower (Str.strip s)) "tomorrow") as [Ht|Ht].
  { destruct (Z_le_gt_dec (DT.toordinal now + 1) DT.MAXORDINAL) as [Hm|Hm].
    - left. destruct (parse_tomorrow_ok now s Ht Hv Hm) as (d & -> & _). eauto.
    - right. split; [apply parse_tomorrow_overflow; [exact Ht|lia]|].
      split; [lia | now left]. }
  destruct (is_weekday_name_dec s) as [Hw|Hw].
  { destruct (is_weekday_name_index s Hw) as (i & Ei & Hi).
    destruct (DateArith.delta_days_spec (DT.weekday now) i Hi) as (Hk & _).
    destruct (Z_le_gt_dec (DT.toordinal now + delta_days (DT.weekday now) i)
                DT.MAXORDINAL) as [Hm|Hm].
    - left. destruct (parse_weekday_add now s i Ei Hv Hm) as (d & -> & _).
      eauto.
    - right. split; [apply (parse_weekday_overflow now s i Ei); lia|].
      split; [lia | now right]. }
  left. rewrite Hnone; eauto. intros d Hd. congruence.
Qed.

(** C6, the claim as stated, fails on the last day of year 9999: for the
    input "tomorrow" the parser raises [OverflowError]. *)
Lemma tomorrow_overflows_at_last_day :
  DT.valid last_day = true
  /\ parse_due_date last_day "tomorrow" = Raise OverflowError
  /\ ~ exists r, parse_due_date last_day "tomorrow" = Ok r.
Proof.
  split; [reflexivity|]. split; [reflexivity|].
  intros [r H]. vm_compute in H. discriminate.
Qed.

(** [parse_due_date_no_error] at a concrete input. *)
Lemma parse_due_date_no_error_witness :
  DT.valid thursday = true
  /\ (exists r, parse_due_date thursday "Tomorrow" = Ok r)
  /\ parse_due_date thursday "next week" = Ok None
  /\ parse_due_date thursday "02/30/2025" = Ok None.
Proof.
  destruct parse_due_date_no_error as (H1 & _ & H3).
  split; [reflexivity|]. split; [|split].
  - destruct (H1 thursday "Tomorrow" eq_refl) as [H|[H _]];
      [exact H | vm_compute in H; discriminate].
  - apply H3.
    + intros d H. vm_compute in H. discriminate.
    + intros H. vm_compute in H. discriminate.
    + unfold is_weekday_name. vm_compute. intuition discriminate.
  - apply H3.
    + intros d H. vm_compute in H. discriminate.
    + intros H. vm_compute in H. discriminate.
    + unfold is_weekday_name. vm_compute. intuition discriminate.
Defined.

(** C10.  The time of day of the parser's result depends on the form of
    the input: a date the MM/DD/YYYY form accepts comes back at midnight,
    while "tomorrow" and a weekday name come back with the time of day of
    [now].  So two due dates on the same calendar day, one from each form,
    differ as sort keys: the midnight one is listed first, whatever the
    priorities. *)
Theorem due_time_depends_on_form :
  (forall now s d,
     Strptime.strptime s = Ok d ->
     parse_due_date now s = Ok (Some d) /\ DT.time_of d = (0, 0, 0, 0))
  /\ (forall now m d y,
        DT.valid_date y m d = true ->
        exists r, parse_due_date now (Format.mdY m d y) = Ok (Some r)
                  /\ DT.date_of r = (y, m, d)
                  /\ DT.time_of r = (0, 0, 0, 0))
  /\ (forall now s,
        Str.lower (Str.strip s) = "tomorrow" \/ is_weekday_name s ->
        (forall d, parse_due_date now s = Ok (Some d) ->
                   DT.time_of d = DT.time_of now)
        /\ (DT.valid now = true -> DT.toordinal now + 7 <= DT.MAXORDINAL ->
            exists d, parse_due_date now s = Ok (Some d)
                      /\ DT.time_of d = DT.time_of now))
  /\ (parse_due_date thursday "01/10/2025" = Ok (Some friday_midnight)
      /\ parse_due_date thursday "tomorrow" = Ok (Some friday_afternoon)
      /\ parse_due_date thursday "friday" = Ok (Some friday_afternoon)
      /\ DT.date_of friday_midnight = DT.date_of friday_afternoon
      /\ DT.eqb friday_midnight friday_afternoon = false
      /\ forall a b,
           due_date a = Some friday_midnight ->
           due_date b = Some friday_afternoon ->
           due_or_max a <> due_or_max b /\ sort_tasks [b; a] = [a; b]).
Proof.
  split; [|split; [|split]].
  - intros now s d H. split;
      [now apply ParseEqns.parse_date | now apply (strptime_midnight s)].
  - intros now m d y H. eexists. split; [|split].
    + apply ParseEqns.parse_date, FormatFacts.strptime_format, H.
    + reflexivity.
    + reflexivity.
  - intros now s Hs. split.
    + intros d. now apply parse_word_time.
    + now apply parse_word_ok.
  - repeat (split; [reflexivity|]). exact midnight_first.
Qed.

(** [due_time_depends_on_form] at a concrete input. *)
Lemma due_time_depends_on_form_witness :
  (parse_due_date thursday "1/10/2025" = Ok (Some friday_midnight)
   /\ DT.time_of friday_midnight = (0, 0, 0, 0))
  /\ (exists d, parse_due_date thursday " Friday" = Ok (Some d)
                /\ DT.time_of d = DT.time_of thursday).
Proof.
  destruct due_time_depends_on_form as (H1 & _ & H3 & _).
  split.
  - apply H1. reflexivity.
  - apply H3.
    + right. unfold is_weekday_name. vm_compute. tauto.
    + reflexivity.
    + vm_compute. discriminate.
Defined.

(** ** The store *)

Module StoreFacts.

Lemma sort_tasks_in l x : In x (sort_tasks l) <-> In x l.
Proof.
  split; apply Permutation_in;
    [apply sort_perm | apply Permutation_sym, sort_perm].
Qed.

Lemma id_unique l x y :
  NoDup (map id l) -> In x l -> In y l -> id x = id y -> x = y.
Proof.
  induction l as [|z l IH]; cbn [map In]; [intros _ []|].
  intros H Hx Hy E. apply NoDup_cons_iff in H as [Hz H].
  destruct Hx as [->|Hx], Hy as [->|Hy]; auto.
  - exfalso. apply Hz. rewrite E. now apply in_map.
  - exfalso. apply Hz. rewrite <- E. now apply in_map.
Qed.

Lemma has_id_spec n t : Tasks.has_id n t = true <-> id t = n.
Proof. unfold Tasks.has_id. apply Z.eqb_eq. Qed.

(** [next] finds the task of that id. *)
Lemma find_unique n l t :
  NoDup (map id l) -> In t l -> id t = n ->
  find (Tasks.has_id n) l = Some t.
Proof.
  intros Hn Ht E.
  destruct (find (Tasks.has_id n) l) as [x|] eqn:F.
  - apply find_some in F as [Hx Hid]. apply has_id_spec in Hid.
    f_equal. apply (id_unique l); congruence.
  - apply (find_none _ _ F) in Ht.
    apply has_id_spec in E. congruence.
Qed.

Lemma find_absent n l :
  (forall t, In t l -> id t <> n) -> find (Tasks.has_id n) l = None.
Proof.
  intros H. destruct (find (Tasks.has_id n) l) as [x|] eqn:F;
    [|reflexivity].
  apply find_some in F as [Hx Hid]. apply has_id_spec in Hid.
  now apply H in Hx.
Qed.

(** What the collection holds after the task of id [n] was changed by
    [f]: the changed task, and every other task as it was. *)
Lemma update_first_in n f l t :
  NoDup (map id l) -> In t l -> id t = n ->
  forall x, In x (Tasks.update_first (Tasks.has_id n) f l)
            <-> x = f t \/ (In x l /\ id x <> n).
Proof.
  induction l as [|y r IH]; cbn [map In Tasks.update_first];
    [intros _ []|].
  intros Hn Ht E x. apply NoDup_cons_iff in Hn as [Hy Hn].
  destruct (Tasks.has_id n y) eqn:Hid.
  - apply has_id_spec in Hid.
    assert (t = y).
    { destruct Ht as [->|Ht]; [reflexivity|].
      exfalso. apply Hy. rewrite Hid, <- E. now apply in_map. }
    subst t. cbn [In]. split.
    + intros [<-|Hx]; [now left|]. right. split; [now right|].
      intros Ex. apply Hy. rewrite Hid, <- Ex. now apply in_map.
    + intros [->|[[<-|Hx] Nx]]; [now left | contradiction | now right].
  - assert (Ny : id y <> n).
    { intros Ey. apply has_id_spec in Ey. congruence. }
    destruct Ht as [->|Ht]; [contradiction|].
    cbn [In]. rewrite (IH Hn Ht E x). split.
    + intros [<-|[->|[Hx Nx]]]; auto.
    + intros [->|[[<-|Hx] Nx]]; auto.
Qed.

Lemma filter_all {A} (p : A -> bool) l :
  (forall x, In x l -> p x = true) -> filter p l = l.
Proof.
  induction l as [|y r IH]; cbn [filter In]; intros H; [reflexivity|].
  rewrite (H y (or_introl eq_refl)), IH; auto.
Qed.

(** Dropping the tasks of id [n] drops the one task that has it. *)
Lemma filter_remove n l t :
  NoDup (map id l) -> In t l -> id t = n ->
  exists l1 l2,
    l = l1 ++ t :: l2
    /\ filter (fun x => negb (id x =? n)) l = l1 ++ l2.
Proof.
  intros Hn Ht E. destruct (in_split _ _ Ht) as (l1 & l2 & ->).
  exists l1, l2. split; [reflexivity|].
  assert (Hother : forall x, In x (l1 ++ l2) -> negb (id x =? n) = true).
  { intros x Hx. apply negb_true_iff, Z.eqb_neq. intros Ex.
    rewrite map_app in Hn. cbn [map] in Hn.
    apply NoDup_remove_2 in Hn. apply Hn.
    rewrite <- map_app, E, <- Ex. now apply in_map. }
  rewrite filter_app. cbn [filter].
  replace (id t =? n) with true by (symmetry; now apply Z.eqb_eq).
  cbn [negb]. rewrite !filter_all; auto.
  - intros x Hx. apply Hother, in_or_app. now right.
  - intros x Hx. apply Hother, in_or_app. now left.
Qed.

(** A stable sort leaves a sorted list as it is. *)
Lemma sort_id {A K} (ltb : K -> K -> bool) (key : A -> K) l :
  StronglySorted (in_order ltb key) l -> sort ltb key l = l.
Proof.
  induction 1 as [|x r Hr IH Hx]; cbn [sort]; [reflexivity|].
  rewrite IH. destruct r as [|y r']; [reflexivity|]. cbn [insert].
  apply Forall_inv in Hx. unfold in_order in Hx. now rewrite Hx.
Qed.



(** The task [next] found is changed where it stands. *)
Lemma update_first_found (p : Task -> bool) f l t :
  find p l = Some t -> In (f t) (Tasks.update_first p f l).
Proof.
  induction l as [|y r IH]; cbn [find Tasks.update_first]; [discriminate|].
  destruct (p y).
  - intros [= ->]. now left.
  - intros H. right. now apply IH.
Qed.

Lemma update_first_length (p : Task -> bool) f l :
  List.length (Tasks.update_first p f l) = List.length l.
Proof.
  induction l as [|y r IH]; cbn [Tasks.update_first]; [reflexivity|].
  destruct (p y); cbn [List.length]; congruence.
Qed.

End StoreFacts.

(** ** Case: [str.lower] and the same letters *)

Module CaseFacts.
Import Str.









End CaseFacts.

Section StoreTheorems.
Context (P : Pickle).
Import StoreFacts.

Local Abbreviation world := (Tasks.world P).
Local Abbreviation tasks := (Tasks.tasks P).
Local Abbreviation file := (Tasks.file P).
Local Abbreviation stdout := (Tasks.stdout P).

Lemma done_found now s n (w : world) t :
  PyInt.int s = Ok n ->
  find (Tasks.has_id n) (tasks w) = Some t ->
  Tasks.done P now s w =
  (Ok tt,
   Tasks.mkWorld P
     (Tasks.update_first (Tasks.has_id n) (mark_completed now) (tasks w))
     (Some (dumps P (Tasks.update_first (Tasks.has_id n)
                       (mark_completed now) (tasks w))))
     (stdout w ++ [Completed n])).
Proof.
  intros Hs Hf. unfold Tasks.done. rewrite Hs, Hf.
  apply find_some in Hf as [_ Hid]. apply has_id_spec in Hid.
  now rewrite Hid.
Qed.

Lemma done_rows now n (w w' : world) t :
  NoDup (map id (tasks w)) -> In t (tasks w) -> id t = n ->
  tasks w' = Tasks.update_first (Tasks.has_id n) (mark_completed now)
               (tasks w) ->
  (forall x, In x (Tasks.list_rows P w') -> id x <> n)
  /\ (forall x, In x (Tasks.report_rows P w') -> id x = n ->
                x = mark_completed now t)
  /\ (forall x, id x <> n -> In x (tasks w') <-> In x (tasks w)).
Proof.
  intros Hn Ht E Hw'.
  pose proof (update_first_in n (mark_completed now) (tasks w) t Hn Ht E)
    as Hin. rewrite <- Hw' in Hin.
  split; [|split].
  - intros x Hx. unfold Tasks.list_rows, Tasks.active in Hx.
    apply sort_tasks_in, filter_In in Hx as [Hx Hd].
    apply Hin in Hx as [->|[_ Nx]]; [discriminate|exact Nx].
  - intros x Hx Ex. apply sort_tasks_in, Hin in Hx as [->|[_ Nx]];
      [reflexivity|contradiction].
  - intros x Nx. rewrite Hin. split.
    + intros [->|[Hx _]]; [|exact Hx]. now contradiction Nx.
    + intros Hx. right. now split.
Qed.

(** C3.  When the id names a task of the store, [done] finds a task [t]
    of that id, succeeds and prints the confirmation; afterwards the task,
    with its completion time set to the time of the call, is not among
    the rows of [list] and is among the rows of [report], and the pickle
    file holds the whole collection.  Ids being unique, [t] is the task
    named, no row of [list] has its id, and every other task is as it
    was. *)
Theorem done_hides_from_list now s n (w : world) t0 :
  PyInt.int s = Ok n ->
  In t0 (tasks w) -> id t0 = n ->
  exists t w',
    find (Tasks.has_id n) (tasks w) = Some t
    /\ In t (tasks w) /\ id t = n
    /\ Tasks.done P now s w = (Ok tt, w')
    /\ stdout w' = stdout w ++ [Completed n]
    /\ ~ In (mark_completed now t) (Tasks.list_rows P w')
    /\ In (mark_completed now t) (Tasks.report_rows P w')
    /\ completed (mark_completed now t) = Some now
    /\ List.length (tasks w') = List.length (tasks w)
    /\ file w' = Some (dumps P (tasks w'))
    /\ (NoDup (map id (tasks w)) ->
        t = t0
        /\ (forall x, In x (Tasks.list_rows P w') -> id x <> n)
        /\ (forall x, In x (Tasks.report_rows P w') -> id x = n ->
                      completed x = Some now)
        /\ (forall x, id x <> n -> In x (tasks w') <-> In x (tasks w))).
Proof.
  intros Hs Ht0 E0.
  destruct (find (Tasks.has_id n) (tasks w)) as [t|] eqn:Hf.
  2:{ apply (find_none _ _ Hf) in Ht0. apply has_id_spec in E0. congruence. }
  pose proof (find_some _ _ Hf) as [Ht Hid]. apply has_id_spec in Hid.
  exists t. eexists. split; [reflexivity|]. split; [exact Ht|].
  split; [exact Hid|]. split; [now apply (done_found now s n w t)|].
  cbn [Tasks.stdout Tasks.file Tasks.tasks].
  split; [reflexivity|]. split; [|split; [|split; [|split; [|split]]]].
  - unfold Tasks.list_rows, Tasks.active. cbn [Tasks.tasks].
    rewrite sort_tasks_in, filter_In. intros [_ Hd]. discriminate.
  - unfold Tasks.report_rows. cbn [Tasks.tasks].
    apply sort_tasks_in. now apply update_first_found.
  - reflexivity.
  - apply update_first_length.
  - reflexivity.
  - intros Hn.
    destruct (done_rows now n w
                (Tasks.mkWorld P
                   (Tasks.update_first (Tasks.has_id n) (mark_completed now)
                      (tasks w))
                   (Some (dumps P (Tasks.update_first (Tasks.has_id n)
                                     (mark_completed now) (tasks w))))
                   (stdout w ++ [Completed n])) t Hn Ht Hid eq_refl)
      as (H1 & H3 & H4).
    split; [apply (id_unique (tasks w)); congruence|].
    split; [exact H1|]. split; [|exact H4].
    intros x Hx Ex. now rewrite (H3 x Hx Ex).
Qed.


(** C5.  [delete] of an id that names a task of the store (ids being
    unique) removes that one task and no other, writes the reduced
    collection to the pickle file and prints the confirmation; [delete]
    of an id that names no task leaves the collection and the file as
    they were and prints "Task not found."; neither raises. *)
Theorem delete_removes_one :
  (forall s n (w : world) t,
     PyInt.int s = Ok n ->
     NoDup (map id (tasks w)) -> In t (tasks w) -> id t = n ->
     exists w' l1 l2,
       Tasks.delete P s w = (Ok tt, w')
       /\ tasks w = l1 ++ t :: l2
       /\ tasks w' = l1 ++ l2
       /\ file w' = Some (dumps P (l1 ++ l2))
       /\ stdout w' = stdout w ++ [Deleted n])
  /\ (forall s n (w : world),
        PyInt.int s = Ok n ->
        (forall t, In t (tasks w) -> id t <> n) ->
        exists w',
          Tasks.delete P s w = (Ok tt, w')
          /\ tasks w' = tasks w
          /\ file w' = file w
          /\ stdout w' = stdout w ++ [NotFound]).
Proof.
  split.
  - intros s n w t Hs Hn Ht E.
    destruct (filter_remove n (tasks w) t Hn Ht E) as (l1 & l2 & Hl & Hf).
    unfold Tasks.delete. rewrite Hs.
    cbn [Tasks.set_tasks Tasks.tasks Tasks.file Tasks.stdout].
    rewrite Hf.
    replace (List.length (l1 ++ l2) <? List.length (tasks w))%nat with true.
    + eexists _, l1, l2. split; [reflexivity|]. repeat split; auto.
    + symmetry. apply Nat.ltb_lt. rewrite Hl, !length_app. cbn. lia.
  - intros s n w Hs Hno. unfold Tasks.delete. rewrite Hs.
    cbn [Tasks.set_tasks Tasks.tasks Tasks.file Tasks.stdout].
    rewrite filter_all.
    + rewrite Nat.ltb_irrefl. eexists. split; [reflexivity|].
      repeat split.
    + intros x Hx. apply negb_true_iff, Z.eqb_neq. now apply Hno.
Qed.

(** C7.  Writing the collection with [pickle_tasks] and building a new
    store from the file gives the same tasks back, field for field: the
    reloaded collection is the saved one sorted by creation time (the
    saved one itself when it was sorted already), so each task is in
    one exactly as often as in the other. *)
Theorem pickle_roundtrip (w : world) stale out :
  exists w',
    Tasks.init P (Tasks.mkWorld P stale (file (Tasks.pickle_tasks P w)) out)
    = (Ok tt, w')
    /\ tasks w' = sort_created (tasks w)
    /\ Permutation (tasks w') (tasks w)
    /\ (forall t, In t (tasks w') <-> In t (tasks w))
    /\ List.length (tasks w') = List.length (tasks w)
    /\ StronglySorted created_order (tasks w')
    /\ (StronglySorted created_order (tasks w) -> tasks w' = tasks w).
Proof.
  unfold Tasks.init, Tasks.pickle_tasks.
  cbn [Tasks.set_tasks Tasks.tasks Tasks.file Tasks.stdout].
  rewrite loads_dumps. eexists. split; [reflexivity|].
  cbn [Tasks.tasks].
  assert (Hp : Permutation (sort_created (tasks w)) (tasks w))
    by apply sort_perm.
  split; [reflexivity|]. split; [exact Hp|].
  split; [|split; [|split]].
  - intros t. split; apply Permutation_in;
      [exact Hp | now apply Permutation_sym].
  - now apply Permutation_length.
  - apply sort_sorted;
      [apply DTFacts.ltb_asym | apply DTFacts.ltb_negtrans].
  - apply sort_id.
Qed.

(** C9.  For a string that is not a decimal integer literal, [done] and
    [delete] raise [ValueError] from the conversion; nothing is printed
    (so "Task not found." is not), the collection is not changed and
    the file is not written.  So a call that returns has a well-formed
    id. *)
Theorem malformed_id_raises now s (w : world) :
  PyInt.literal s = None ->
  Tasks.done P now s w = (Raise ValueError, w)
  /\ Tasks.delete P s w = (Raise ValueError, w)
  /\ (forall w', Tasks.done P now s w <> (Ok tt, w'))
  /\ (forall w', Tasks.delete P s w <> (Ok tt, w')).
Proof.
  intros H. unfold Tasks.done, Tasks.delete, PyInt.int. rewrite H.
  repeat split; discriminate.
Qed.

End StoreTheorems.

(** ** The theorems at work on a small store *)

Lemma shelf_ids : NoDup (map id (Tasks.tasks memory_pickle shelf)).
Proof.
  repeat constructor; cbn; intuition discriminate.
Defined.

(** [done_hides_from_list] at a concrete input. *)
Lemma done_hides_from_list_witness :
  PyInt.int " 12 " = Ok 12
  /\ In mid (Tasks.tasks memory_pickle shelf)
  /\ exists t w',
       find (Tasks.has_id 12) (Tasks.tasks memory_pickle shelf) = Some t
       /\ In t (Tasks.tasks memory_pickle shelf) /\ id t = 12
       /\ Tasks.done memory_pickle friday_afternoon " 12 " shelf = (Ok tt, w')
       /\ Tasks.stdout memory_pickle w' = [Completed 12]
       /\ ~ In (mark_completed friday_afternoon t)
               (Tasks.list_rows memory_pickle w')
       /\ In (mark_completed friday_afternoon t)
             (Tasks.report_rows memory_pickle w')
       /\ completed (mark_completed friday_afternoon t)
          = Some friday_afternoon
       /\ List.length (Tasks.tasks memory_pickle w') = 3%nat
       /\ Tasks.file memory_pickle w'
          = Some (dumps memory_pickle (Tasks.tasks memory_pickle w'))
       /\ (NoDup (map id (Tasks.tasks memory_pickle shelf)) ->
           t = mid
           /\ (forall x, In x (Tasks.list_rows memory_pickle w') ->
                         id x <> 12)
           /\ (forall x, In x (Tasks.report_rows memory_pickle w') ->
                         id x = 12 -> completed x = Some friday_afternoon)
           /\ (forall x, id x <> 12 ->
                         In x (Tasks.tasks memory_pickle w')
                         <-> In x (Tasks.tasks memory_pickle shelf))).
Proof.
  split; [reflexivity|]. split; [right; left; reflexivity|].
  apply (done_hides_from_list memory_pickle friday_afternoon " 12 " 12
           shelf mid).
  - reflexivity.
  - right; left; reflexivity.
  - reflexivity.
Defined.

Example done_example :
  Tasks.list_rows memory_pickle
    (snd (Tasks.done memory_pickle friday_afternoon "12" shelf))
  = [high; low]
  /\ Tasks.report_rows memory_pickle
       (snd (Tasks.done memory_pickle friday_afternoon "12" shelf))
     = [high; mark_completed friday_afternoon mid; low].
Proof. split; reflexivity. Qed.

(** [delete_removes_one] at a concrete input. *)
Lemma delete_removes_one_witness :
  (exists w' l1 l2,
     Tasks.delete memory_pickle "12" shelf = (Ok tt, w')
     /\ Tasks.tasks memory_pickle shelf = l1 ++ mid :: l2
     /\ Tasks.tasks memory_pickle w' = l1 ++ l2
     /\ Tasks.file memory_pickle w' = Some (dumps memory_pickle (l1 ++ l2))
     /\ Tasks.stdout memory_pickle w' = [Deleted 12])
  /\ (exists w',
        Tasks.delete memory_pickle "99" shelf = (Ok tt, w')
        /\ Tasks.tasks memory_pickle w' = Tasks.tasks memory_pickle shelf
        /\ Tasks.file memory_pickle w' = Tasks.file memory_pickle shelf
        /\ Tasks.stdout memory_pickle w' = [NotFound]).
Proof.
  destruct (delete_removes_one memory_pickle) as [H1 H2]. split.
  - apply (H1 "12" 12 shelf mid).
    + reflexivity.
    + exact shelf_ids.
    + right; left; reflexivity.
    + reflexivity.
  - apply (H2 "99" 99 shelf).
    + reflexivity.
    + cbn. intros t [<-|[<-|[<-|[]]]]; discriminate.
Defined.

Example delete_example :
  Tasks.delete memory_pickle "12" shelf
  = (Ok tt, Tasks.mkWorld memory_pickle [low; high] (Some [low; high])
              [Deleted 12]).
Proof. reflexivity. Qed.


Example query_example :
  Tasks.query_rows memory_pickle ["I"; "zzz"]
    (snd (Tasks.done memory_pickle friday_afternoon "13" shelf))
  = [mid].
Proof. reflexivity. Qed.

(** [pickle_roundtrip] at a concrete input. *)
Lemma pickle_roundtrip_witness :
  exists w',
    Tasks.init memory_pickle
      (Tasks.mkWorld memory_pickle []
         (Tasks.file memory_pickle (Tasks.pickle_tasks memory_pickle shelf))
         [])
    = (Ok tt, w')
    /\ Tasks.tasks memory_pickle w' = Tasks.tasks memory_pickle shelf.
Proof.
  destruct (pickle_roundtrip memory_pickle shelf [] [])
    as (w' & H1 & _ & _ & _ & _ & _ & H7).
  exists w'. split; [exact H1|]. apply H7.
  cbn. repeat constructor.
Defined.

(** what [int] takes and what it refuses *)
Example int_examples :
  PyInt.int " 42 " = Ok 42 /\ PyInt.int "+7" = Ok 7
  /\ PyInt.int "-1_000" = Ok (-1000) /\ PyInt.int "007" = Ok 7
  /\ PyInt.literal "" = None /\ PyInt.literal "abc" = None
  /\ PyInt.literal "12ab" = None /\ PyInt.literal "1.5" = None
  /\ PyInt.literal "0x1F" = None /\ PyInt.literal "1__0" = None
  /\ PyInt.literal "- 5" = None /\ PyInt.literal "4 2" = None
  /\ PyInt.literal "_1" = None /\ PyInt.literal "1_" = None
  /\ PyInt.literal (String (ascii_of_nat 31) "12") = None
  /\ PyInt.int (String (ascii_of_nat 133) "12") = Ok 12.
Proof. repeat split; reflexivity. Qed.

(** [malformed_id_raises] at a concrete input. *)
Lemma malformed_id_raises_witness :
  PyInt.literal "12ab" = None
  /\ Tasks.done memory_pickle friday_afternoon "12ab" shelf
     = (Raise ValueError, shelf)
  /\ Tasks.delete memory_pickle "12ab" shelf = (Raise ValueError, shelf).
Proof.
  destruct (malformed_id_raises memory_pickle friday_afternoon "12ab" shelf
              eq_refl) as (H1 & H2 & _).
  exact (conj eq_refl (conj H1 H2)).
Defined.

(** * Further properties *)

(** ** More on the stable sort: selections and field updates *)

Section SortSelect.
Context {A K : Type} (ltb : K -> K -> bool) (key : A -> K).
Hypothesis ltb_asym : forall a b, ltb a b = true -> ltb b a = false.
Hypothesis ltb_negtrans :
  forall a b c, ltb a b = false -> ltb b c = false -> ltb a c = false.

Lemma insert_front x l :
  Forall (fun z => ltb (key z) (key x) = false) l ->
  insert ltb key x l = x :: l.
Proof.
  destruct l as [|y r]; [reflexivity|]. intros H.
  apply Forall_inv in H. cbn [insert]. now rewrite H.
Qed.

Lemma filter_insert_sorted (p : A -> bool) x l :
  StronglySorted (in_order ltb key) l ->
  filter p (insert ltb key x l)
  = if p x then insert ltb key x (filter p l) else filter p l.
Proof.
  induction 1 as [|y r Hr IH Hy]; cbn [insert filter].
  - destruct (p x); reflexivity.
  - destruct (ltb (key y) (key x)) eqn:E.
    + cbn [filter]. rewrite IH.
      destruct (p x), (p y); cbn [insert]; rewrite ?E; reflexivity.
    + cbn [filter]. destruct (p x); [|reflexivity].
      symmetry. apply insert_front.
      assert (Hall : Forall (fun z => ltb (key z) (key x) = false) (y :: r)).
      { constructor; [exact E|]. rewrite Forall_forall in *.
        intros z Hz. unfold in_order in Hy.
        eapply ltb_negtrans; [apply Hy, Hz | exact E]. }
      rewrite Forall_forall in *. intros z Hz.
      apply Hall. change (In z (filter p (y :: r))) in Hz.
      apply filter_In in Hz as [Hz _]. exact Hz.
Qed.

(** Selecting before the sort or after it gives the same rows. *)
Lemma filter_sort_comm (p : A -> bool) l :
  filter p (sort ltb key l) = sort ltb key (filter p l).
Proof.
  induction l as [|x r IH]; [reflexivity|]. cbn [sort filter].
  rewrite filter_insert_sorted by (now apply sort_sorted).
  rewrite IH. destruct (p x); reflexivity.
Qed.

Lemma insert_map (f : A -> A) x l :
  (forall a, key (f a) = key a) ->
  insert ltb key (f x) (map f l) = map f (insert ltb key x l).
Proof.
  intros Hf. induction l as [|y r IH]; [reflexivity|].
  cbn [map insert]. rewrite !Hf.
  destruct (ltb (key y) (key x)); cbn [map]; [now rewrite IH|reflexivity].
Qed.

(** A change that leaves the keys alone leaves every row in its place. *)
Lemma sort_map (f : A -> A) l :
  (forall a, key (f a) = key a) ->
  sort ltb key (map f l) = map f (sort ltb key l).
Proof.
  intros Hf. induction l as [|x r IH]; [reflexivity|].
  cbn [map sort]. now rewrite IH, insert_map.
Qed.

End SortSelect.

Lemma sort_tasks_filter p l :
  filter p (sort_tasks l) = sort_tasks (filter p l).
Proof.
  apply filter_sort_comm; [apply key_ltb_asym | apply key_ltb_negtrans].
Qed.

Lemma filter_filter {A} (p q : A -> bool) l :
  filter p (filter q l) = filter (fun x => q x && p x) l.
Proof.
  induction l as [|x r IH]; [reflexivity|]. cbn [filter].
  destruct (q x); cbn [filter andb]; [|exact IH].
  destruct (p x); now rewrite IH.
Qed.

Lemma filter_swap {A} (p q : A -> bool) l :
  filter p (filter q l) = filter q (filter p l).
Proof.
  rewrite !filter_filter. apply filter_ext. intros x. apply andb_comm.
Qed.

(** ** The store: how the operations act on the listings *)

Module StoreMore.
Import StoreFacts.

Lemma update_first_ids (p : Task -> bool) f l :
  (forall t, id (f t) = id t) ->
  map id (Tasks.update_first p f l) = map id l.
Proof.
  intros Hf. induction l as [|y r IH]; [reflexivity|].
  cbn [Tasks.update_first]. destruct (p y); cbn [map]; [now rewrite Hf|].
  now rewrite IH.
Qed.

(** With unique ids, changing the first task of id [n] is changing every
    task of id [n]. *)
Lemma update_first_map n f l :
  NoDup (map id l) ->
  Tasks.update_first (Tasks.has_id n) f l
  = map (fun t => if Tasks.has_id n t then f t else t) l.
Proof.
  induction l as [|y r IH]; [reflexivity|]. cbn [map]. intros H.
  apply NoDup_cons_iff in H as [Hy H]. cbn [Tasks.update_first].
  destruct (Tasks.has_id n y) eqn:E; [|now rewrite IH].
  f_equal. apply has_id_spec in E. symmetry.
  rewrite <- (map_id r) at 2. apply map_ext_in. intros t Ht.
  destruct (Tasks.has_id n t) eqn:Et; [|reflexivity].
  apply has_id_spec in Et. exfalso. apply Hy.
  rewrite E, <- Et. now apply in_map.
Qed.

Lemma update_first_twice (p : Task -> bool) f g l :
  (forall t, p (f t) = p t) ->
  Tasks.update_first p g (Tasks.update_first p f l)
  = Tasks.update_first p (fun t => g (f t)) l.
Proof.
  intros Hf. induction l as [|y r IH]; [reflexivity|].
  cbn [Tasks.update_first]. destruct (p y) eqn:E; cbn [Tasks.update_first].
  - now rewrite Hf, E.
  - now rewrite E, IH.
Qed.

Lemma update_first_evolves (p : Task -> bool) f l :
  (forall t, evolves t (f t)) ->
  Forall2 evolves l (Tasks.update_first p f l).
Proof.
  intros Hf. assert (Hrefl : forall r, Forall2 evolves r r).
  { induction r; constructor; [split; auto|assumption]. }
  induction l as [|y r IH]; [constructor|].
  cbn [Tasks.update_first]. destruct (p y); constructor; auto.
  split; auto.
Qed.

Lemma find_update_first (p : Task -> bool) f l t :
  (forall x, p (f x) = p x) ->
  find p l = Some t -> find p (Tasks.update_first p f l) = Some (f t).
Proof.
  intros Hf. induction l as [|y r IH]; cbn [find Tasks.update_first];
    [discriminate|].
  destruct (p y) eqn:E.
  - intros [= ->]. cbn [find]. now rewrite Hf, E.
  - intros H. cbn [find]. rewrite E. now apply IH.
Qed.

Lemma contains_empty hay : Str.contains "" hay = true.
Proof. destruct hay; reflexivity. Qed.

Lemma NoDup_app_iff_fresh {A} (l : list A) x :
  NoDup l -> ~ In x l -> NoDup (l ++ [x]).
Proof.
  intros Hn Hx. apply NoDup_rev in Hn. rewrite <- (rev_involutive (l ++ [x])).
  apply NoDup_rev. rewrite rev_app_distr. cbn. constructor; [|exact Hn].
  now rewrite <- in_rev.
Qed.

Lemma filter_none {A} (p : A -> bool) l :
  (forall x, In x l -> p x = false) -> filter p l = [].
Proof.
  induction l as [|y r IH]; [reflexivity|]. intros H. cbn [filter].
  rewrite (H y (or_introl eq_refl)). apply IH. intros x Hx. apply H. now right.
Qed.

(** The open tasks, once the tasks of id [n] are completed. *)
Lemma open_after_mark n now l :
  filter (fun t => negb (is_done t))
    (map (fun t => if Tasks.has_id n t then mark_completed now t else t) l)
  = filter (fun t => negb (is_done t)) (filter (other_id n) l).
Proof.
  induction l as [|x r IH]; [reflexivity|]. cbn [map filter].
  unfold other_id at 1, Tasks.has_id at 1 2.
  destruct (id x =? n); cbn [negb].
  - exact IH.
  - cbn [filter]. destruct (negb (is_done x)); now rewrite IH.
Qed.

End StoreMore.

Section StoreExtras.
Context (P : Pickle).
Import StoreFacts StoreMore.

Local Abbreviation world := (Tasks.world P).
Local Abbreviation tasks := (Tasks.tasks P).
Local Abbreviation file := (Tasks.file P).
Local Abbreviation stdout := (Tasks.stdout P).

(** X1.  The rows of [list] are the rows of [report] that are not
    completed, in the order [report] has them. *)
Theorem list_is_open_part_of_report (w : world) :
  Tasks.list_rows P w
  = filter (fun t => negb (is_done t)) (Tasks.report_rows P w).
Proof.
  unfold Tasks.list_rows, Tasks.report_rows, Tasks.active.
  symmetry. apply sort_tasks_filter.
Qed.

(** X2.  The rows of [query] are the rows of [list] whose name matches
    one of the terms, in the order [list] has them; with no term there is
    no row, and with an empty term among the terms every row of [list] is
    there. *)
Theorem query_refines_list terms (w : world) :
  Tasks.query_rows P terms w
  = filter (Tasks.matches_any terms) (Tasks.list_rows P w)
  /\ Tasks.query_rows P [] w = []
  /\ (In "" terms -> Tasks.query_rows P terms w = Tasks.list_rows P w).
Proof.
  assert (H : forall ts,
             Tasks.query_rows P ts w
             = filter (Tasks.matches_any ts) (Tasks.list_rows P w)).
  { intros ts. unfold Tasks.query_rows, Tasks.list_rows, Tasks.active.
    rewrite sort_tasks_filter, filter_filter. reflexivity. }
  split; [apply H|]. split.
  - rewrite H. apply filter_none. reflexivity.
  - intros Hin. rewrite H. apply filter_all. intros t _.
    unfold Tasks.matches_any. apply existsb_exists.
    exists "". split; [exact Hin|]. apply contains_empty.
Qed.

(** X3.  After [delete] of a well-formed id, each listing is what it was
    without the rows of that id: the other rows stay, in their order. *)
Theorem delete_drops_rows s n (w : world) :
  PyInt.int s = Ok n ->
  Tasks.list_rows P (snd (Tasks.delete P s w))
  = filter (other_id n) (Tasks.list_rows P w)
  /\ Tasks.report_rows P (snd (Tasks.delete P s w))
     = filter (other_id n) (Tasks.report_rows P w)
  /\ forall terms,
       Tasks.query_rows P terms (snd (Tasks.delete P s w))
       = filter (other_id n) (Tasks.query_rows P terms w).
Proof.
  intros Hs.
  assert (Ht : tasks (snd (Tasks.delete P s w))
               = filter (other_id n) (tasks w)).
  { unfold Tasks.delete. rewrite Hs.
    cbn [Tasks.set_tasks Tasks.tasks Tasks.file Tasks.stdout].
    destruct (_ <? _)%nat; reflexivity. }
  unfold Tasks.list_rows, Tasks.report_rows, Tasks.query_rows, Tasks.active.
  rewrite Ht. repeat split; intros;
    rewrite ?sort_tasks_filter; try reflexivity;
    now rewrite filter_swap.
Qed.

(** X4.  [done] of a well-formed id that names no task prints "Task not
    found." and changes nothing else: the collection is as it was and
    the file is not written. *)
Theorem done_unknown_id now s n (w : world) :
  PyInt.int s = Ok n ->
  (forall t, In t (tasks w) -> id t <> n) ->
  Tasks.done P now s w = (Ok tt, Tasks.print P NotFound w)
  /\ tasks (Tasks.print P NotFound w) = tasks w
  /\ file (Tasks.print P NotFound w) = file w.
Proof.
  intros Hs Hno. unfold Tasks.done. rewrite Hs.
  rewrite (find_absent n (tasks w) Hno). repeat split.
Qed.

(** X5.  [done] has no guard against completing twice: on a task that
    [done] completed before, it succeeds again and the later time
    replaces the earlier one, so the store ends as if only the second
    call had been made. *)
Theorem done_twice_keeps_later now1 now2 s n (w : world) t :
  PyInt.int s = Ok n ->
  In t (tasks w) -> id t = n ->
  exists w2,
    Tasks.done P now2 s (snd (Tasks.done P now1 s w)) = (Ok tt, w2)
    /\ tasks w2 = tasks (snd (Tasks.done P now2 s w))
    /\ file w2 = file (snd (Tasks.done P now2 s w))
    /\ stdout w2 = stdout w ++ [Completed n; Completed n].
Proof.
  intros Hs Ht E.
  destruct (find (Tasks.has_id n) (tasks w)) as [t'|] eqn:Hf.
  2:{ apply (find_none _ _ Hf) in Ht. apply has_id_spec in E. congruence. }
  pose proof (find_some _ _ Hf) as [_ Hid]. apply has_id_spec in Hid.
  assert (Hp : forall x, Tasks.has_id n (mark_completed now1 x)
                         = Tasks.has_id n x) by reflexivity.
  pose proof (find_update_first _ (mark_completed now1) _ _ Hp Hf) as Hf1.
  rewrite (done_found P now1 s n w t' Hs Hf),
          (done_found P now2 s n w t' Hs Hf).
  cbn [snd]. eexists. split.
  - apply (done_found P now2 s n _ (mark_completed now1 t') Hs).
    cbn [Tasks.tasks]. exact Hf1.
  - cbn [Tasks.tasks Tasks.file Tasks.stdout].
    rewrite (update_first_twice _ _ _ _ Hp).
    change (fun t0 => mark_completed now2 (mark_completed now1 t0))
      with (mark_completed now2).
    rewrite <- app_assoc. repeat split.
Qed.

(** X6.  [done] never adds, removes or reorders tasks and never changes
    a name, a priority, an id, a creation time or a due date; a task
    that was completed stays completed. *)
Theorem done_only_completes now s (w : world) :
  Forall2 evolves (tasks w) (tasks (snd (Tasks.done P now s w)))
  /\ map id (tasks (snd (Tasks.done P now s w))) = map id (tasks w).
Proof.
  assert (Hrefl : forall r, Forall2 evolves r r).
  { induction r; constructor; [split; auto|assumption]. }
  unfold Tasks.done. destruct (PyInt.int s) as [n|e]; [|now split].
  destruct (find (Tasks.has_id n) (tasks w)); [|now split].
  cbn [snd Tasks.set_tasks Tasks.pickle_tasks Tasks.print Tasks.tasks].
  split.
  - apply update_first_evolves. intros x. split; reflexivity.
  - now apply update_first_ids.
Qed.


(** X7.  Ids being unique, [done] of a well-formed id takes the rows of
    that id out of [list] and leaves the other rows in their order; in
    [report] every row stays where it was, the row of that id now
    completed. *)
Theorem done_keeps_rows_in_place now s n (w : world) :
  PyInt.int s = Ok n ->
  NoDup (map id (tasks w)) ->
  Tasks.list_rows P (snd (Tasks.done P now s w))
  = filter (other_id n) (Tasks.list_rows P w)
  /\ Tasks.report_rows P (snd (Tasks.done P now s w))
     = map (fun t => if Tasks.has_id n t then mark_completed now t else t)
           (Tasks.report_rows P w).
Proof.
  intros Hs Hn.
  set (g := fun t => if Tasks.has_id n t then mark_completed now t else t).
  assert (Hg : forall a, sort_key (g a) = sort_key a).
  { intros a. unfold g. destruct (Tasks.has_id n a); reflexivity. }
  assert (Ht : tasks (snd (Tasks.done P now s w)) = map g (tasks w)).
  { unfold Tasks.done. rewrite Hs.
    destruct (find (Tasks.has_id n) (tasks w)) as [t|] eqn:Hf.
    - cbn [snd Tasks.set_tasks Tasks.pickle_tasks Tasks.print Tasks.tasks].
      now apply update_first_map.
    - cbn [snd Tasks.print Tasks.tasks]. rewrite <- (map_id (tasks w)) at 1.
      apply map_ext_in. intros t Ht. unfold g.
      now rewrite (find_none _ _ Hf t Ht). }
  unfold Tasks.list_rows, Tasks.report_rows, Tasks.active. rewrite Ht.
  split.
  - rewrite sort_tasks_filter, filter_swap. f_equal. apply open_after_mark.
  - apply sort_map. exact Hg.
Qed.

Lemma add_due_of uuid now_due now_created nm due prio (w : world) :
  Tasks.add P uuid now_due now_created nm due prio w
  = match due_of now_due due with
    | Raise e => (Raise e, w)
    | Ok dd =>
        (Ok tt,
         Tasks.mkWorld P
           (tasks w ++ [mkTask nm prio uuid now_created dd None])
           (Some (dumps P (tasks w ++ [mkTask nm prio uuid now_created dd None])))
           (stdout w ++ [Created uuid]))
    end.
Proof.
  unfold Tasks.add, due_of. destruct due as [[|c r]|]; try reflexivity.
Qed.

(** X8.  When the due text parses (or there is none), [add] puts one new
    task at the end of the collection - open, with the name, priority and
    due date given - writes the whole collection to the file and prints
    the new id; the task is then in [list], once only when the id is
    new.  When the parser raises, [add] raises the same exception and
    nothing is added, written or printed. *)
Theorem add_appends_one uuid now_due now_created nm due prio (w : world) :
  (forall dd,
     due_of now_due due = Ok dd ->
     exists w',
       Tasks.add P uuid now_due now_created nm due prio w = (Ok tt, w')
       /\ tasks w' = tasks w ++ [mkTask nm prio uuid now_created dd None]
       /\ file w' = Some (dumps P (tasks w'))
       /\ stdout w' = stdout w ++ [Created uuid]
       /\ In (mkTask nm prio uuid now_created dd None) (Tasks.list_rows P w')
       /\ (~ In uuid (map id (tasks w)) ->
           filter (Tasks.has_id uuid) (Tasks.list_rows P w')
           = [mkTask nm prio uuid now_created dd None]))
  /\ (forall e,
        due_of now_due due = Raise e ->
        Tasks.add P uuid now_due now_created nm due prio w = (Raise e, w)).
Proof.
  split.
  - intros dd Hd. rewrite add_due_of, Hd. eexists. split; [reflexivity|].
    cbn [Tasks.tasks Tasks.file Tasks.stdout].
    repeat (split; [reflexivity|]).
    unfold Tasks.list_rows, Tasks.active. cbn [Tasks.tasks]. split.
    + apply sort_tasks_in, filter_In. split; [|reflexivity].
      apply in_or_app. right. now left.
    + intros Hfresh. rewrite sort_tasks_filter, filter_swap, filter_app.
      rewrite (filter_none (Tasks.has_id uuid) (tasks w)).
      * cbn. unfold Tasks.has_id. cbn. now rewrite Z.eqb_refl.
      * intros x Hx. destruct (Tasks.has_id uuid x) eqn:E; [|reflexivity].
        apply has_id_spec in E. exfalso. apply Hfresh. rewrite <- E.
        now apply in_map.
  - intros e He. now rewrite add_due_of, He.
Qed.

Lemma NoDup_map_filter {A B} (f : A -> B) (p : A -> bool) l :
  NoDup (map f l) -> NoDup (map f (filter p l)).
Proof.
  induction l as [|x r IH]; [auto|]. cbn [map filter]. intros H.
  apply NoDup_cons_iff in H as [Hx H]. destruct (p x); [|auto].
  cbn [map]. constructor; [|auto]. intros Hin. apply Hx.
  apply in_map_iff in Hin as (y & Ey & Hy). apply filter_In in Hy as [Hy _].
  rewrite <- Ey. now apply in_map.
Qed.

(** X9.  Unique ids are an invariant of the store: [done] and [delete]
    keep them unique whatever the argument, and [add] does when the id
    it draws is not in the store. *)
Theorem unique_ids_kept (w : world) :
  NoDup (map id (tasks w)) ->
  (forall now s, NoDup (map id (tasks (snd (Tasks.done P now s w)))))
  /\ (forall s, NoDup (map id (tasks (snd (Tasks.delete P s w)))))
  /\ (forall uuid now_due now_created nm due prio,
        ~ In uuid (map id (tasks w)) ->
        NoDup (map id (tasks (snd (Tasks.add P uuid now_due now_created
                                     nm due prio w))))).
Proof.
  intros Hn. split; [|split].
  - intros now s. unfold Tasks.done.
    destruct (PyInt.int s) as [n|e]; [|exact Hn].
    destruct (find (Tasks.has_id n) (tasks w)); [|exact Hn].
    cbn [snd Tasks.set_tasks Tasks.pickle_tasks Tasks.print Tasks.tasks].
    now rewrite update_first_ids.
  - intros s. unfold Tasks.delete.
    destruct (PyInt.int s) as [n|e]; [|exact Hn].
    cbn [Tasks.set_tasks Tasks.tasks Tasks.file Tasks.stdout].
    destruct (_ <? _)%nat;
      cbn [snd Tasks.pickle_tasks Tasks.print Tasks.tasks];
      now apply NoDup_map_filter.
  - intros uuid now_due now_created nm due prio Hfresh.
    rewrite add_due_of. destruct (due_of now_due due); [|exact Hn].
    cbn [snd Tasks.tasks]. rewrite map_app. cbn [map id].
    apply NoDup_app_iff_fresh; assumption.
Qed.

End StoreExtras.

(** ** The last day of the calendar *)

Module CalendarMore.
Import DT.

Lemma year_end y :
  1 <= y <= 9999 ->
  days_before_year y + 365 + (if is_leap y then 1 else 0) <= MAXORDINAL.
Proof.
  intros Hy. unfold days_before_year, is_leap, MAXORDINAL. cbv zeta.
  destruct (y mod 4 =? 0) eqn:E4; cbn [andb].
  - apply Z.eqb_eq in E4.
    destruct (negb (y mod 100 =? 0) || (y mod 400 =? 0));
      Z.div_mod_to_equations; lia.
  - Z.div_mod_to_equations; lia.
Qed.

Lemma month_end y m d :
  valid_date y m d = true ->
  days_before_month y m + d <= 365 + (if is_leap y then 1 else 0).
Proof.
  unfold valid_date, days_before_month, days_in_month. intros H.
  repeat (apply andb_true_iff in H as [H ?]).
  repeat match goal with
         | H : (_ <=? _) = true |- _ => apply Z.leb_le in H
         end.
  assert (Hm : m = 1 \/ m = 2 \/ m = 3 \/ m = 4 \/ m = 5 \/ m = 6 \/ m = 7
               \/ m = 8 \/ m = 9 \/ m = 10 \/ m = 11 \/ m = 12) by lia.
  destruct (is_leap y);
    repeat (destruct Hm as [->|Hm]; [cbv -[Z.add Z.le Z.lt] in *; lia|]);
    subst; cbv -[Z.add Z.le Z.lt] in *; lia.
Qed.

Lemma valid_date_of d :
  valid d = true -> valid_date (year d) (month d) (day d) = true.
Proof.
  unfold valid. intros H. do 8 (apply andb_true_iff in H as [H ?]). exact H.
Qed.

(** No valid datetime is after the last day. *)
Lemma valid_toordinal_max d : valid d = true -> toordinal d <= MAXORDINAL.
Proof.
  intros H. pose proof (valid_date_of d H) as Hd.
  pose proof (month_end _ _ _ Hd).
  unfold valid_date, MINYEAR, MAXYEAR in Hd.
  repeat (apply andb_true_iff in Hd as [Hd ?]).
  repeat match goal with
         | H : (_ <=? _) = true |- _ => apply Z.leb_le in H
         end.
  pose proof (year_end (year d) ltac:(lia)).
  unfold toordinal, ymd2ord. lia.
Qed.

End CalendarMore.

(** ** More on the date parser *)

Module ParseMore.
Import Str Strptime ParseFacts.

Lemma parse_unrecognised now s :
  (forall d, strptime s <> Ok d) ->
  lower (strip s) <> "tomorrow" ->
  ~ is_weekday_name s ->
  parse_due_date now s = Ok None.
Proof.
  intros Hd Ht Hw. destruct s as [|c r]; [reflexivity|].
  unfold parse_due_date.
  destruct (strptime_cases (String c r)) as [[d E]|E];
    [now apply Hd in E|]. rewrite E.
  destruct (String.eqb_spec (lower (strip (String c r))) "tomorrow");
    [contradiction|].
  apply index_none in Hw. now rewrite Hw.
Qed.

(** Text that starts with a digit is a date or nothing. *)
Lemma parse_digit_head now c r :
  is_digit c = true ->
  strptime (String c r) = Raise ValueError ->
  parse_due_date now (String c r) = Ok None.
Proof.
  intros Hc E. unfold parse_due_date. rewrite E.
  destruct (strip_lower_head c r Hc) as [r' ->].
  destruct (String.eqb_spec (String c r') "tomorrow") as [H|_].
  { injection H as -> _. discriminate. }
  now rewrite (digit_first_index c r' weekdays Hc weekdays_letters).
Qed.

Lemma digit_char_digit a :
  0 <= a <= 9 -> is_digit (Format.digit_char a) = true.
Proof.
  intros Ha. pattern a. apply (FormatFacts.small_cases _ 0 10); [|lia].
  intros k Hk. do 10 (destruct k as [|k]; [reflexivity|]). lia.
Qed.

Lemma max_is_last y m d :
  DT.valid_date y m d = true -> DT.ltb (DT.mk y m d 0 0 0 0) DT.max = true.
Proof.
  intros H. unfold DT.valid_date, DT.MAXYEAR in H.
  repeat (apply andb_true_iff in H as [H ?]).
  repeat match goal with
         | H : (_ <=? _) = true |- _ => apply Z.leb_le in H
         end.
  pose proof (DTFacts.days_in_month_max y m).
  unfold DT.ltb, DT.compare, DT.fields, DT.max.
  cbn [DT.year DT.month DT.day DT.hour DT.minute DT.second DT.microsecond
       DT.lex].
  repeat match goal with
         | |- context [?x ?= ?y] =>
             destruct (Z.compare_spec x y); try reflexivity; try lia
         end.
Qed.

Lemma strptime_shape s d :
  strptime s = Ok d ->
  exists y m dd, d = DT.mk y m dd 0 0 0 0 /\ DT.valid_date y m dd = true.
Proof.
  unfold strptime.
  destruct (re_mdY s) as [|[[[m dd] y] [|c r]] l]; try discriminate.
  destruct (DT.valid_date y m dd) eqn:E; [|discriminate].
  intros [= <-]. eauto.
Qed.

End ParseMore.

(** X10.  For the text "tomorrow" (any case, with surrounding
    whitespace) and a valid [now], the parser returns the next calendar
    day at the time of day of [now]; on the last representable day it
    raises [OverflowError] instead. *)
Theorem tomorrow_is_next_day now s :
  Str.lower (Str.strip s) = "tomorrow" ->
  DT.valid now = true ->
  (exists d,
     parse_due_date now s = Ok (Some d)
     /\ DT.toordinal d = DT.toordinal now + 1
     /\ DT.time_of d = DT.time_of now
     /\ DT.weekday d = (DT.weekday now + 1) mod 7
     /\ DT.date_of d <> DT.date_of now)
  \/ (parse_due_date now s = Raise OverflowError
      /\ DT.toordinal now = DT.MAXORDINAL).
Proof.
  intros Hs Hv.
  destruct (Z_le_gt_dec (DT.toordinal now + 1) DT.MAXORDINAL) as [Hm|Hm].
  - left. destruct (parse_tomorrow_ok now s Hs Hv Hm) as (d & E & Ho & Ht).
    exists d. repeat split; try assumption.
    + unfold DT.weekday. rewrite Ho, Zplus_mod_idemp_l. f_equal. lia.
    + intros E'. apply DateArith.date_of_toordinal in E'. lia.
  - right. split; [apply parse_tomorrow_overflow; [exact Hs|lia]|].
    pose proof (CalendarMore.valid_toordinal_max now Hv). lia.
Qed.

(** X11.  A date of the MM/DD/YYYY form that the calendar does not have
    (the 30th of February, the 31st of April, the 29th of February of a
    common year, year 0000) is not an error: the parser gives "no due
    date". *)
Theorem impossible_date_is_no_date now m d y :
  1 <= m <= 12 -> 1 <= d <= 31 -> 0 <= y <= 9999 ->
  DT.valid_date y m d = false ->
  parse_due_date now (Format.mdY m d y) = Ok None.
Proof.
  intros Hm Hd Hy Hv.
  destruct (FormatFacts.re_mdY_format m d y Hm Hd Hy) as [tl E].
  assert (Hs : Strptime.strptime (Format.mdY m d y) = Raise ValueError).
  { unfold Strptime.strptime. now rewrite E, Hv. }
  revert Hs. unfold Format.mdY, Format.two_digits. cbn [String.append].
  apply ParseMore.parse_digit_head. apply ParseMore.digit_char_digit.
  Z.div_mod_to_equations. lia.
Qed.

(** X12.  A due date given as MM/DD/YYYY is before [datetime.max], so
    in every listing a task with such a due date stands before every
    undated task. *)
Theorem given_date_before_undated s d :
  Strptime.strptime s = Ok d ->
  DT.ltb d DT.max = true
  /\ forall l l1 u l2 a,
       sort_tasks l = l1 ++ u :: l2 ->
       due_date u = None -> due_date a = Some d -> ~ In a l2.
Proof.
  intros Hs. destruct (ParseMore.strptime_shape s d Hs) as (y & m & dd & -> & Hv).
  pose proof (ParseMore.max_is_last y m dd Hv) as Hlt.
  split; [exact Hlt|]. intros l l1 u l2 a E Hu Ha Hin.
  destruct (sort_tasks_undated l l1 u l2 a _ E Hu Hin Ha) as [H _].
  congruence.
Qed.

(** ** [age_in_days] *)

Lemma time_us_range d : DT.valid d = true -> 0 <= time_us d < 86400000000.
Proof.
  unfold DT.valid, time_us, seconds_of_day. intros H.
  do 8 (apply andb_true_iff in H as [H ?]).
  repeat match goal with
         | H : (_ <=? _) = true |- _ => apply Z.leb_le in H
         end.
  lia.
Qed.

(** X13.  The age shown counts whole periods of 24 hours, not calendar
    days: it is the number of calendar days from [created] to [now], less
    one when the time of day of [now] is earlier than that of [created]
    - so a task created in the evening is still "0d" the next morning,
    and a task created after [now] has a negative age. *)
Theorem age_counts_whole_days now created :
  DT.valid now = true -> DT.valid created = true ->
  sub_days now created
  = DT.toordinal now - DT.toordinal created
    - (if time_us now <? time_us created then 1 else 0)
  /\ age_in_days now created
     = String.append
         (str_int (DT.toordinal now - DT.toordinal created
                   - (if time_us now <? time_us created then 1 else 0)))
         "d".
Proof.
  intros Hn Hc.
  pose proof (time_us_range now Hn). pose proof (time_us_range created Hc).
  assert (E : sub_days now created
              = DT.toordinal now - DT.toordinal created
                - (if time_us now <? time_us created then 1 else 0)).
  { unfold sub_days. cbv zeta.
    replace ((seconds_of_day now - seconds_of_day created) * 1000000
             + (DT.microsecond now - DT.microsecond created))
      with (time_us now - time_us created) by (unfold time_us; lia).
    change (86400 * 1000000) with 86400000000.
    destruct (Z.ltb_spec (time_us now) (time_us created));
      Z.div_mod_to_equations; lia. }
  split; [exact E|]. unfold age_in_days. now rewrite E.
Qed.

Example age_examples :
  age_in_days (DT.mk 2025 1 10 8 0 0 0) (DT.mk 2025 1 9 20 0 0 0) = "0d"
  /\ age_in_days (DT.mk 2025 1 10 20 0 0 0) (DT.mk 2025 1 9 20 0 0 0) = "1d"
  /\ age_in_days (DT.mk 2025 3 1 0 0 0 0) (DT.mk 2024 3 1 0 0 0 0) = "365d"
  /\ age_in_days (DT.mk 2025 1 9 8 0 0 0) (DT.mk 2025 1 9 8 0 0 1) = "-1d".
Proof. repeat split; reflexivity. Qed.

(** ** [int(str(n))]: an id that was printed can be typed back *)

Module StrInt.
Import Str PyInt.

Lemma digits_from_digit acc cnt c r :
  is_digit c = true ->
  digits_from acc cnt false (String c r)
  = digits_from (10 * acc + digit_val c) (cnt + 1) false r.
Proof. intros H. cbn [digits_from]. now rewrite H. Qed.

Lemma digits_from_uint d : forall acc cnt,
  digits_from acc cnt false (DecimalString.NilEmpty.string_of_uint d)
  = Some (uint_value d acc, cnt + Z.of_nat (Decimal.nb_digits d)).
Proof.
  induction d; intros acc cnt;
    cbn [DecimalString.NilEmpty.string_of_uint Decimal.nb_digits uint_value].
  - cbn [digits_from]. f_equal. f_equal. cbn. lia.
  - rewrite digits_from_digit, IHd by reflexivity. f_equal. f_equal. lia.
  - rewrite digits_from_digit, IHd by reflexivity. f_equal. f_equal. lia.
  - rewrite digits_from_digit, IHd by reflexivity. f_equal. f_equal. lia.
  - rewrite digits_from_digit, IHd by reflexivity. f_equal. f_equal. lia.
  - rewrite digits_from_digit, IHd by reflexivity. f_equal. f_equal. lia.
  - rewrite digits_from_digit, IHd by reflexivity. f_equal. f_equal. lia.
  - rewrite digits_from_digit, IHd by reflexivity. f_equal. f_equal. lia.
  - rewrite digits_from_digit, IHd by reflexivity. f_equal. f_equal. lia.
  - rewrite digits_from_digit, IHd by reflexivity. f_equal. f_equal. lia.
  - rewrite digits_from_digit, IHd by reflexivity. f_equal. f_equal. lia.
Qed.

Lemma digits_uint d :
  d <> Decimal.Nil ->
  digits (DecimalString.NilEmpty.string_of_uint d)
  = Some (uint_value d 0, Z.of_nat (Decimal.nb_digits d)).
Proof.
  intros Hd. destruct d; [contradiction| ..];
    cbn [DecimalString.NilEmpty.string_of_uint digits];
    (replace (is_digit _) with true by reflexivity);
    cbv iota; rewrite digits_from_uint;
    cbn [Decimal.nb_digits uint_value]; f_equal; f_equal; lia.
Qed.

Lemma uint_value_acc d : forall p,
  Z.pos (Pos.of_uint_acc d p) = uint_value d (Z.pos p).
Proof.
  induction d; intros p; cbn [Pos.of_uint_acc uint_value];
    [reflexivity| ..]; rewrite IHd; f_equal; lia.
Qed.

Lemma uint_value_of_uint d : Z.of_N (Pos.of_uint d) = uint_value d 0.
Proof.
  induction d; cbn [Pos.of_uint uint_value]; [reflexivity|exact IHd| ..];
    cbn [Z.of_N]; rewrite uint_value_acc; reflexivity.
Qed.

Lemma uint_value_pos p : uint_value (Pos.to_uint p) 0 = Z.pos p.
Proof.
  now rewrite <- uint_value_of_uint, DecimalPos.Unsigned.of_to.
Qed.

Lemma uint_value_lower d : forall acc,
  0 <= acc -> acc * 10 ^ Z.of_nat (Decimal.nb_digits d) <= uint_value d acc.
Proof.
  induction d; intros acc Ha; cbn [Decimal.nb_digits uint_value];
    [cbn; lia| ..];
    rewrite Nat2Z.inj_succ, Z.pow_succ_r by lia;
    (etransitivity; [|apply IHd; lia]);
    assert (0 < 10 ^ Z.of_nat (Decimal.nb_digits d))
      by (apply Z.pow_pos_nonneg; lia);
    nia.
Qed.

(** The numeral of a positive number has no leading zero. *)
Lemma to_uint_head p l : Pos.to_uint p <> Decimal.D0 l.
Proof.
  intros E.
  assert (Hn : Decimal.unorm (Pos.to_uint p) = Pos.to_uint p).
  { rewrite <- DecimalPos.Unsigned.to_of, DecimalPos.Unsigned.of_to.
    reflexivity. }
  rewrite E, DecimalFacts.unorm_D0 in Hn.
  destruct (Decimal.uint_eq_dec (Decimal.nzhead l) Decimal.Nil) as [Hz|Hz].
  - apply DecimalFacts.unorm_0 in Hz. rewrite Hz in Hn.
    apply (DecimalPos.Unsigned.to_uint_nonzero p). now rewrite E, <- Hn.
  - rewrite (DecimalFacts.unorm_nzhead _ Hz) in Hn.
    exact (DecimalFacts.nzhead_nonzero _ _ Hn).
Qed.

(** so it has no more digits than its value allows *)
Lemma to_uint_digits p k :
  0 <= k -> Z.pos p < 10 ^ k ->
  Z.of_nat (Decimal.nb_digits (Pos.to_uint p)) <= k.
Proof.
  intros Hk Hp. rewrite <- uint_value_pos in Hp.
  pose proof (to_uint_head p) as Hh.
  pose proof (DecimalPos.Unsigned.to_uint_nonnil p) as Hnil.
  destruct (Pos.to_uint p) as [|l|l|l|l|l|l|l|l|l|l];
    [contradiction|exfalso; exact (Hh l eq_refl)| ..];
    cbn [uint_value Decimal.nb_digits] in *;
    rewrite Nat2Z.inj_succ;
    match type of Hp with
    | uint_value _ ?a < _ =>
        pose proof (uint_value_lower l a ltac:(lia)) as Hlow
    end;
    assert (Hlt : 10 ^ Z.of_nat (Decimal.nb_digits l) < 10 ^ k)
      by (assert (0 < 10 ^ Z.of_nat (Decimal.nb_digits l))
            by (apply Z.pow_pos_nonneg; lia); nia);
    apply Z.pow_lt_mono_r_iff in Hlt; lia.
Qed.

Lemma skip_leading_id c r :
  is_space c = false -> skip_leading (String c r) = String c r.
Proof. intros H. cbn [skip_leading]. now rewrite H. Qed.

Lemma skip_trailing_id s :
  all_chars not_space s = true -> skip_trailing s = s.
Proof.
  induction s as [|c r IH]; [reflexivity|]. cbn [all_chars]. intros H.
  apply andb_true_iff in H as [Hc Hr]. cbn [skip_trailing].
  rewrite (IH Hr). unfold not_space in Hc. apply negb_true_iff in Hc.
  rewrite Hc. now destruct r.
Qed.

Lemma uint_not_space d :
  all_chars not_space (DecimalString.NilEmpty.string_of_uint d) = true.
Proof.
  induction d; cbn [DecimalString.NilEmpty.string_of_uint all_chars];
    [reflexivity| ..]; rewrite IHd; reflexivity.
Qed.

Lemma literal_uint d :
  d <> Decimal.Nil ->
  literal (DecimalString.NilEmpty.string_of_uint d)
  = Some (uint_value d 0, Z.of_nat (Decimal.nb_digits d)).
Proof.
  intros Hd. unfold literal.
  assert (Hs : skip_trailing (skip_leading (DecimalString.NilEmpty.string_of_uint d))
               = DecimalString.NilEmpty.string_of_uint d).
  { pose proof (uint_not_space d) as Ha.
    destruct d; [contradiction| ..];
      cbn [DecimalString.NilEmpty.string_of_uint] in *;
      (rewrite skip_leading_id by reflexivity);
      apply skip_trailing_id; exact Ha. }
  rewrite Hs.
  assert (Hg : signed (DecimalString.NilEmpty.string_of_uint d)
               = (false, DecimalString.NilEmpty.string_of_uint d))
    by (destruct d; reflexivity).
  rewrite Hg, (digits_uint d Hd). reflexivity.
Qed.

Lemma literal_neg d :
  d <> Decimal.Nil ->
  literal (String "-" (DecimalString.NilEmpty.string_of_uint d))
  = Some (- uint_value d 0, Z.of_nat (Decimal.nb_digits d)).
Proof.
  intros Hd. unfold literal.
  rewrite skip_leading_id by reflexivity.
  rewrite skip_trailing_id
    by (cbn [all_chars]; rewrite uint_not_space; reflexivity).
  cbn [signed]. rewrite (digits_uint d Hd). reflexivity.
Qed.

Lemma int_str_int n :
  Z.abs n < 10 ^ int_max_str_digits -> int (str_int n) = Ok n.
Proof.
  intros Hn. unfold int, str_int.
  destruct n as [|p|p]; cbn [Z.to_int DecimalString.NilEmpty.string_of_int].
  - reflexivity.
  - rewrite (literal_uint _ (DecimalPos.Unsigned.to_uint_nonnil p)).
    rewrite uint_value_pos.
    pose proof (to_uint_digits p int_max_str_digits ltac:(unfold int_max_str_digits; lia) Hn) as Hd.
    destruct (int_max_str_digits <? _) eqn:E; [|reflexivity].
    apply Z.ltb_lt in E. lia.
  - rewrite (literal_neg _ (DecimalPos.Unsigned.to_uint_nonnil p)).
    rewrite uint_value_pos.
    pose proof (to_uint_digits p int_max_str_digits ltac:(unfold int_max_str_digits; lia) Hn) as Hd.
    destruct (int_max_str_digits <? _) eqn:E; [|reflexivity].
    apply Z.ltb_lt in E. lia.
Qed.

End StrInt.

(** ** Ids as printed, and whole runs *)

Module RunFacts.
Import Str Strptime ParseFacts.




End RunFacts.

Section RunTheorems.
Context (P : Pickle).
Import StoreFacts StoreMore RunFacts.

Local Abbreviation world := (Tasks.world P).
Local Abbreviation tasks := (Tasks.tasks P).
Local Abbreviation file := (Tasks.file P).
Local Abbreviation stdout := (Tasks.stdout P).

Lemma find_in_id n (l : list Task) t :
  In t l -> id t = n -> exists t', find (Tasks.has_id n) l = Some t'.
Proof.
  intros Hin Hid. destruct (find (Tasks.has_id n) l) eqn:E; [eauto|].
  exfalso. apply (find_none _ _ E) in Hin.
  unfold Tasks.has_id in Hin. apply Z.eqb_neq in Hin. contradiction.
Qed.

Lemma filter_shorter {A} (p : A -> bool) l x :
  In x l -> p x = false ->
  (List.length (filter p l) < List.length l)%nat.
Proof.
  induction l as [|y r IH]; [contradiction|]. intros [->|Hin] Hp.
  - cbn [filter]. rewrite Hp. pose proof (filter_length_le p r).
    cbn [List.length]. lia.
  - cbn [filter]. specialize (IH Hin Hp).
    destruct (p y); cbn [List.length]; lia.
Qed.

(** X14.  An id is accepted as it is printed: [int] reads the text
    [str] gives for a number back as that number, so [done] and [delete]
    given the printed id of a task of the store do not raise, and
    complete or remove that task. *)
Theorem printed_id_is_accepted now n (w : world) t :
  Z.abs n < 10 ^ PyInt.int_max_str_digits ->
  In t (tasks w) -> id t = n ->
  PyInt.int (str_int n) = Ok n
  /\ fst (Tasks.done P now (str_int n) w) = Ok tt
  /\ stdout (snd (Tasks.done P now (str_int n) w))
     = stdout w ++ [Completed n]
  /\ (exists t', In t' (tasks (snd (Tasks.done P now (str_int n) w)))
                 /\ id t' = n /\ completed t' = Some now)
  /\ fst (Tasks.delete P (str_int n) w) = Ok tt
  /\ stdout (snd (Tasks.delete P (str_int n) w)) = stdout w ++ [Deleted n]
  /\ (forall t', In t' (tasks (snd (Tasks.delete P (str_int n) w))) ->
                 id t' <> n).
Proof.
  intros Hn Hin Hid. pose proof (StrInt.int_str_int n Hn) as Hi.
  split; [exact Hi|].
  destruct (find_in_id n _ t Hin Hid) as [t' Hf].
  rewrite (done_found P now _ n w t' Hi Hf).
  cbn [fst snd Tasks.tasks Tasks.stdout].
  split; [reflexivity|]. split; [reflexivity|]. split.
  { exists (mark_completed now t'). split; [|split].
    - apply update_first_found with (t := t'); exact Hf.
    - cbn [mark_completed id]. apply find_some in Hf as [_ Hf].
      now apply has_id_spec in Hf.
    - reflexivity. }
  unfold Tasks.delete. rewrite Hi.
  cbn [Tasks.set_tasks Tasks.tasks Tasks.file Tasks.stdout].
  assert (Hlt : Nat.ltb (List.length (filter (fun x => negb (id x =? n))
                                         (tasks w)))
                        (List.length (tasks w)) = true).
  { apply Nat.ltb_lt. apply filter_shorter with (x := t); [exact Hin|].
    apply negb_false_iff, Z.eqb_eq, Hid. }
  rewrite Hlt. cbn [fst snd Tasks.print Tasks.pickle_tasks Tasks.tasks
                    Tasks.stdout Tasks.file].
  split; [reflexivity|]. split; [reflexivity|].
  intros x Hx. apply filter_In in Hx as [_ Hx].
  now apply negb_true_iff, Z.eqb_neq in Hx.
Qed.

Lemma add_file uuid now_due now_created nm due prio (w : world) :
  kept_or_saved P w (Tasks.add P uuid now_due now_created nm due prio w).
Proof.
  rewrite add_due_of. unfold kept_or_saved.
  destruct (due_of now_due due); cbn [fst snd Tasks.file Tasks.tasks].
  - split; [right; split; reflexivity|]. now intros [].
  - split; [now left|reflexivity].
Qed.

Lemma done_file now s (w : world) : kept_or_saved P w (Tasks.done P now s w).
Proof.
  unfold kept_or_saved, Tasks.done. destruct (PyInt.int s) as [n|e].
  - destruct (find (Tasks.has_id n) (tasks w));
      cbn [fst snd Tasks.print Tasks.pickle_tasks Tasks.set_tasks
           Tasks.file Tasks.tasks].
    + split; [right; split; reflexivity|]. now intros [].
    + split; [now left|]. now intros [].
  - cbn [fst snd]. split; [now left|reflexivity].
Qed.

Lemma delete_file s (w : world) : kept_or_saved P w (Tasks.delete P s w).
Proof.
  unfold kept_or_saved, Tasks.delete. destruct (PyInt.int s) as [n|e].
  - cbn [Tasks.set_tasks Tasks.tasks Tasks.file Tasks.stdout].
    destruct (Nat.ltb _ _);
      cbn [fst snd Tasks.print Tasks.pickle_tasks Tasks.file Tasks.tasks].
    + split; [right; split; reflexivity|]. now intros [].
    + split; [now left|]. now intros [].
  - cbn [fst snd]. split; [now left|reflexivity].
Qed.

Lemma init_cases (w : world) :
  (Tasks.init P w = (Ok tt, Tasks.mkWorld P (loaded P w) (file w) (stdout w))
   /\ match file w with
      | Some b => exists l, loads P b = Some l /\ loaded P w = sort_created l
      | None => loaded P w = []
      end)
  \/ (Tasks.init P w
      = (Raise UnpicklingError, Tasks.mkWorld P [] (file w) (stdout w))
      /\ exists b, file w = Some b /\ loads P b = None).
Proof.
  unfold loaded, Tasks.init, Tasks.set_tasks. cbv zeta.
  cbn [Tasks.tasks Tasks.file Tasks.stdout].
  destruct (file w) as [b|] eqn:Ef.
  - destruct (loads P b) as [l|] eqn:El.
    + left. cbn [snd Tasks.tasks]. split; [reflexivity|]. eauto.
    + right. split; [reflexivity|]. eauto.
  - left. cbn [snd Tasks.tasks]. split; reflexivity.
Qed.

(** X15.  A run leaves the file as it found it or holding the pickle of
    the whole final collection, nothing else; it leaves it as it found
    it whenever it fails - the parser's refusal included - and whenever
    the command is [--list], [--report], [--query] or none - then the
    collection is the loaded one too. *)
Theorem run_keeps_or_saves_file env cl (w : world) :
  (file (after (main P env cl w)) = file w
   \/ (outcome (main P env cl w) = Ok tt
       /\ file (after (main P env cl w))
          = Some (dumps P (tasks (after (main P env cl w))))))
  /\ (outcome (main P env cl w) <> Ok tt ->
      file (after (main P env cl w)) = file w)
  /\ (forall args,
        cl = Returns args -> reads_only args ->
        file (after (main P env cl w)) = file w
        /\ (outcome (main P env cl w) = Ok tt ->
            tasks (after (main P env cl w)) = loaded P w)).
Proof.
  assert (Hop : forall (w0 : world) r,
             file w0 = file w -> kept_or_saved P w0 r ->
             (file (snd r) = file w
              \/ (fst r = Ok tt /\ file (snd r) = Some (dumps P (tasks (snd r)))))
             /\ (fst r <> Ok tt -> file (snd r) = file w)).
  { intros w0 r E [[H|H] Hr].
    - split; [left; congruence|]. intros _. congruence.
    - split; [now right|]. destruct H as [H _]. now intros []. }
  destruct cl as [| |args]; cbn [main outcome after].
  { repeat split; try (now left). discriminate. }
  { repeat split; try (now left). discriminate. }
  assert (Hargs : forall Q : Prop,
            (reads_only args -> Q) ->
            forall a, Returns args = Returns a -> reads_only a -> Q).
  { intros Q HQ a [= <-]. exact HQ. }
  unfold reads_only in Hargs.
  destruct (init_cases w) as [[-> _]|[-> _]].
  2:{ cbn [outcome after Tasks.file]. split; [now left|].
      split; [reflexivity|]. apply Hargs. intros _.
      split; [reflexivity|discriminate]. }
  set (w0 := Tasks.mkWorld P (loaded P w) (file w) (stdout w)).
  assert (E0 : file w0 = file w) by reflexivity.
  destruct (given (arg_add args)) as [nm|].
  { cbn [ran outcome after].
    destruct (Hop w0 _ E0 (add_file (env_uuid env) (env_now_due env)
                (env_now_created env) nm (arg_due args)
                (choice_int (arg_priority args)) w0)) as [H1 H2].
    split; [exact H1|]. split; [exact H2|]. apply Hargs. now intros [? _]. }
  destruct (arg_list args).
  { cbn [ran outcome after fst snd Tasks.list Tasks.print Tasks.file
         Tasks.tasks]. split; [now left|]. split; [reflexivity|].
    apply Hargs. intros _. split; reflexivity. }
  destruct (arg_report args).
  { cbn [ran outcome after fst snd Tasks.report Tasks.print Tasks.file
         Tasks.tasks]. split; [now left|]. split; [reflexivity|].
    apply Hargs. intros _. split; reflexivity. }
  destruct (given (arg_done args)) as [sd|].
  { cbn [ran outcome after].
    destruct (Hop w0 _ E0 (done_file (env_now_done env) sd w0)) as [H1 H2].
    split; [exact H1|]. split; [exact H2|]. apply Hargs.
    intros [_ [?|[?|[? _]]]]; discriminate. }
  destruct (given (arg_delete args)) as [sd|].
  { cbn [ran outcome after].
    destruct (Hop w0 _ E0 (delete_file sd w0)) as [H1 H2].
    split; [exact H1|]. split; [exact H2|]. apply Hargs.
    intros [_ [?|[?|[_ ?]]]]; discriminate. }
  destruct (arg_query args) as [[term terms]|];
    cbn [ran outcome after fst snd Tasks.query Tasks.print Tasks.file
         Tasks.tasks]; (split; [now left|]); (split; [reflexivity|]);
    apply Hargs; intros _; split; reflexivity.
Qed.



Lemma sort_created_filter p l :
  filter p (sort_created l) = sort_created (filter p l).
Proof.
  apply filter_sort_comm; [apply DTFacts.ltb_asym | apply DTFacts.ltb_negtrans].
Qed.

Lemma sort_created_in l x : In x (sort_created l) <-> In x l.
Proof.
  split; apply Permutation_in;
    [apply sort_perm | apply Permutation_sym, sort_perm].
Qed.

(** X17.  What [--add] did in one run, [--list] shows in the next: the
    second run reads the collection back from the file, prints the open
    tasks of the first run's collection and the new task among them -
    once only when the id drawn was not in the file - and leaves the
    file as the first run wrote it. *)
Theorem add_then_list_next_run env env' args args' (w : world) nm :
  given (arg_add args) = Some nm ->
  outcome (main P env (Returns args) w) = Ok tt ->
  given (arg_add args') = None -> arg_list args' = true ->
  exists dd rows w2,
    due_of (env_now_due env) (arg_due args) = Ok dd
    /\ main P env' (Returns args') (after (main P env (Returns args) w))
       = mkRun (Ok tt) w2 false
    /\ stdout w2 = stdout w ++ [Created (env_uuid env); ListTable rows]
    /\ file w2
       = Some (dumps P (loaded P w
                        ++ [mkTask nm (choice_int (arg_priority args)) (env_uuid env)
                              (env_now_created env) dd None]))
    /\ (forall t, In t rows <->
                  (In t (loaded P w) /\ is_done t = false)
                  \/ t = mkTask nm (choice_int (arg_priority args)) (env_uuid env)
                           (env_now_created env) dd None)
    /\ (~ In (env_uuid env) (map id (loaded P w)) ->
        filter (Tasks.has_id (env_uuid env)) rows
        = [mkTask nm (choice_int (arg_priority args)) (env_uuid env)
             (env_now_created env) dd None]).
Proof.
  intros Ha Hok Ha' Hl'. cbn [main] in Hok |- *.
  destruct (init_cases w) as [[E _]|[E _]]; rewrite E in Hok |- *;
    [|discriminate].
  rewrite Ha in Hok |- *. cbn [ran outcome after] in Hok |- *.
  rewrite add_due_of in Hok |- *.
  destruct (due_of (env_now_due env) (arg_due args)) as [dd|e] eqn:Ed;
    [|discriminate].
  cbn [snd Tasks.tasks Tasks.stdout]. clear Hok E.
  set (new := mkTask nm (choice_int (arg_priority args)) (env_uuid env)
                (env_now_created env) dd None).
  set (l1 := loaded P w ++ [new]).
  exists dd, (sort_tasks (Tasks.active (sort_created l1))).
  eexists. split; [reflexivity|].
  assert (Ei : Tasks.init P (Tasks.mkWorld P l1 (Some (dumps P l1))
                               (stdout w ++ [Created (env_uuid env)]))
               = (Ok tt, Tasks.mkWorld P (sort_created l1)
                           (Some (dumps P l1))
                           (stdout w ++ [Created (env_uuid env)]))).
  { unfold Tasks.init, Tasks.set_tasks. cbv zeta.
    cbn [Tasks.tasks Tasks.file Tasks.stdout]. now rewrite loads_dumps. }
  rewrite Ei, Ha', Hl'. cbn [ran fst snd Tasks.list].
  split; [reflexivity|].
  cbn [snd Tasks.list Tasks.print Tasks.stdout Tasks.file Tasks.tasks].
  unfold Tasks.list_rows. cbn [Tasks.tasks].
  split.
  { rewrite <- app_assoc. reflexivity. }
  split; [reflexivity|]. split.
  - intros t. rewrite sort_tasks_in. unfold Tasks.active. rewrite filter_In.
    rewrite sort_created_in. unfold l1. rewrite in_app_iff.
    cbn [In]. rewrite negb_true_iff. split.
    + intros [[H|[H|[]]] Hd]; [left; auto|right; auto].
    + intros [[H Hd]|Ht]; [|subst t]; [split; auto|]. split; [right; now left|reflexivity].
  - intros Hfresh. rewrite sort_tasks_filter. unfold Tasks.active.
    rewrite filter_swap, sort_created_filter. unfold l1.
    rewrite filter_app.
    rewrite (filter_none (Tasks.has_id (env_uuid env)) (loaded P w)).
    + cbn [filter app]. unfold Tasks.has_id at 1. cbn [id new].
      rewrite Z.eqb_refl. reflexivity.
    + intros x Hx. unfold Tasks.has_id. apply Z.eqb_neq. intros Hid.
      apply Hfresh. rewrite <- Hid. now apply in_map.
Qed.

End RunTheorems.

(** ** Text around a date *)

Module ParseAround.
Import Str Strptime ParseFacts ParseMore Format FormatFacts.

Lemma re_mdY_rest m d y rest :
  1 <= m <= 12 -> 1 <= d <= 31 -> 0 <= y <= 9999 ->
  exists tl, re_mdY (mdY m d y ++ rest) = ((m, d, y), rest) :: tl.
Proof.
  intros Hm Hd Hy. unfold mdY, re_mdY. rewrite !append_assoc.
  change ("/" ++ two_digits d ++ "/" ++ four_digits y ++ rest)%string
    with (String "/" (two_digits d ++ String "/" (four_digits y ++ rest))
         %string).
  destruct (re_m_two m (two_digits d ++ String "/" (four_digits y ++ rest)) Hm)
    as [tl1 ->].
  rewrite bind_cons. cbn [lit Ascii.eqb Bool.eqb]. rewrite bind_cons.
  destruct (re_d_two d (four_digits y ++ rest) Hd) as [tl2 ->].
  rewrite bind_cons. cbn [lit Ascii.eqb Bool.eqb]. rewrite bind_cons.
  rewrite (re_Y_four y rest Hy).
  cbn. eexists. reflexivity.
Qed.

Lemma mdY_head m d y rest :
  1 <= m <= 12 ->
  exists c r, (mdY m d y ++ rest)%string = String c r /\ is_digit c = true.
Proof.
  intros Hm. unfold mdY, two_digits. cbn [String.append].
  eexists _, _. split; [reflexivity|].
  apply digit_char_digit. Z.div_mod_to_equations. lia.
Qed.

Lemma lstrip_spaces pre s :
  all_chars is_space pre = true -> lstrip (pre ++ s) = lstrip s.
Proof.
  induction pre as [|c pre IH]; [reflexivity|]. cbn [all_chars]. intros H.
  apply andb_true_iff in H as [Hc Hp]. cbn [String.append lstrip].
  rewrite Hc. exact (IH Hp).
Qed.

(** what the parser makes of text that is no date and, trimmed, starts
    with a digit *)
Lemma parse_digit_inside now s c r :
  s <> "" -> strptime s = Raise ValueError ->
  strip s = strip (String c r) -> is_digit c = true ->
  parse_due_date now s = Ok None.
Proof.
  intros Hs E Hst Hc. destruct s as [|a s']; [contradiction|].
  unfold parse_due_date. rewrite E, Hst.
  destruct (strip_lower_head c r Hc) as [r' ->].
  destruct (String.eqb_spec (String c r') "tomorrow") as [H|_].
  { injection H as -> _. discriminate. }
  now rewrite (digit_first_index c r' weekdays Hc weekdays_letters).
Qed.

End ParseAround.

(** X18.  A complete MM/DD/YYYY date with anything after it, or with
    whitespace before it, is not a date for the parser and not an error:
    whitespace is trimmed only after the date form was tried, so the
    result is "no due date", while " tomorrow " is understood. *)
Theorem date_with_more_text_is_no_date now m d y :
  1 <= m <= 12 -> 1 <= d <= 31 -> 0 <= y <= 9999 ->
  (forall c r,
     parse_due_date now (Format.mdY m d y ++ String c r)%string = Ok None)
  /\ (forall c pre,
        all_chars Str.is_space (String c pre) = true ->
        parse_due_date now (String c pre ++ Format.mdY m d y)%string
        = Ok None).
Proof.
  intros Hm Hd Hy. split.
  - intros c r.
    destruct (ParseAround.mdY_head m d y (String c r) Hm) as (a & s & E & Ha).
    destruct (ParseAround.re_mdY_rest m d y (String c r) Hm Hd Hy) as [tl Er].
    rewrite E in *. apply ParseMore.parse_digit_head; [exact Ha|].
    unfold Strptime.strptime. now rewrite Er.
  - intros c pre Hsp.
    destruct (ParseAround.mdY_head m d y "" Hm) as (a & s & E & Ha).
    rewrite FormatFacts.append_nil in E.
    apply ParseAround.parse_digit_inside with (c := a) (r := s).
    + discriminate.
    + destruct (ParseFacts.strptime_cases (String c pre ++ Format.mdY m d y))
        as [[x Ex]|Ex]; [|exact Ex].
      apply ParseFacts.strptime_head in Ex as (c' & r' & Ec & Hc').
      cbn [String.append] in Ec. injection Ec as <- _.
      apply ParseFacts.digit_not_space in Hc'.
      cbn [all_chars] in Hsp. apply andb_true_iff in Hsp as [Hsp _].
      congruence.
    + unfold Str.strip. rewrite ParseAround.lstrip_spaces by exact Hsp.
      now rewrite E.
    + exact Ha.
Qed.

Section OneCommand.
Context (P : Pickle).
Import RunFacts.

Local Abbreviation world := (Tasks.world P).
Local Abbreviation file := (Tasks.file P).
Local Abbreviation stdout := (Tasks.stdout P).

(** X19.  A run that returns normally carries out one command only,
    the first of those given in the order add, list, report, done,
    delete, query: it is that one operation on the loaded store, and
    prints one thing, what that command prints; the commands given
    after it are ignored.  The run prints the usage text, and nothing
    else, exactly when no command is given. *)
Theorem run_carries_out_one_command env args (w : world) :
  outcome (main P env (Returns args) w) = Ok tt ->
  main P env (Returns args) w
  = match commands_given args with
    | [] => mkRun (Ok tt) (Tasks.mkWorld P (loaded P w) (file w) (stdout w))
              true
    | c :: _ =>
        ran (carry_out P env args c
               (Tasks.mkWorld P (loaded P w) (file w) (stdout w)))
    end
  /\ (usage (main P env (Returns args) w) = true
      <-> commands_given args = [])
  /\ (commands_given args = [] ->
      stdout (after (main P env (Returns args) w)) = stdout w)
  /\ (forall c rest,
        commands_given args = c :: rest ->
        exists o,
          stdout (after (main P env (Returns args) w)) = stdout w ++ [o]
          /\ prints c o).
Proof.
  cbn [main]. unfold commands_given.
  destruct (init_cases P w) as [[-> _]|[-> _]]; [|discriminate].
  set (w0 := Tasks.mkWorld P (loaded P w) (file w) (stdout w)).
  assert (Hone : forall (c : Command) l r o,
            stdout (snd r) = stdout w ++ [o] -> prints c o ->
            ran r = ran r
            /\ (usage (ran r) = true <-> c :: l = [])
            /\ (c :: l = [] -> stdout (after (ran r)) = stdout w)
            /\ (forall c' rest, c :: l = c' :: rest ->
                  exists o', stdout (after (ran r)) = stdout w ++ [o']
                             /\ prints c' o')).
  { intros c l r o Ho Hp. split; [reflexivity|]. split; [|split].
    - cbn [ran usage]. split; discriminate.
    - discriminate.
    - intros c' rest [= <- _]. exists o. now split. }
  destruct (given (arg_add args)) as [nm|] eqn:Ea; cbn [app].
  { cbn [carry_out ran outcome]. rewrite add_due_of.
    destruct (due_of (env_now_due env) (arg_due args)) as [dd|];
      [|discriminate]. intros _.
    eapply Hone; [reflexivity|exact I]. }
  destruct (arg_list args) eqn:El; cbn [app].
  { intros _. eapply Hone; [reflexivity|exact I]. }
  destruct (arg_report args) eqn:Er; cbn [app].
  { intros _. eapply Hone; [reflexivity|exact I]. }
  destruct (given (arg_done args)) as [sd|] eqn:Ed; cbn [app].
  { cbn [carry_out ran outcome]. unfold Tasks.done.
    destruct (PyInt.int sd) as [n|]; [|discriminate].
    destruct (find _ _); intros _; (eapply Hone; [reflexivity|exact I]). }
  destruct (given (arg_delete args)) as [sd|] eqn:Ex; cbn [app].
  { cbn [carry_out ran outcome]. unfold Tasks.delete.
    destruct (PyInt.int sd) as [n|]; [|discriminate].
    cbn [Tasks.set_tasks Tasks.tasks].
    destruct (Nat.ltb _ _); intros _; (eapply Hone; [reflexivity|exact I]). }
  destruct (arg_query args) as [[term terms]|] eqn:Eq; intros _.
  - eapply Hone; [reflexivity|exact I].
  - split; [reflexivity|]. split; [|split].
    + split; reflexivity.
    + reflexivity.
    + discriminate.
Qed.

End OneCommand.

(** ** The further properties at work on the small store *)

Lemma query_refines_list_witness :
  In "" [""; "mid"]
  /\ Tasks.query_rows memory_pickle [""; "mid"] shelf
     = Tasks.list_rows memory_pickle shelf.
Proof.
  destruct (query_refines_list memory_pickle [""; "mid"] shelf)
    as (_ & _ & H).
  assert (Hin : In "" [""; "mid"]) by (left; reflexivity).
  exact (conj Hin (H Hin)).
Defined.

Lemma delete_drops_rows_witness :
  PyInt.int "12" = Ok 12
  /\ Tasks.list_rows memory_pickle (snd (Tasks.delete memory_pickle "12" shelf))
     = [high; low].
Proof.
  destruct (delete_drops_rows memory_pickle "12" 12 shelf eq_refl) as [H _].
  exact (conj eq_refl (eq_trans H eq_refl)).
Defined.

Lemma done_unknown_id_witness :
  PyInt.int "99" = Ok 99
  /\ Tasks.done memory_pickle friday_afternoon "99" shelf
     = (Ok tt, Tasks.print memory_pickle NotFound shelf).
Proof.
  split; [reflexivity|].
  apply (done_unknown_id memory_pickle friday_afternoon "99" 99 shelf).
  - reflexivity.
  - cbn. intros t [<-|[<-|[<-|[]]]]; discriminate.
Defined.

Lemma done_twice_keeps_later_witness :
  PyInt.int "12" = Ok 12
  /\ In mid (Tasks.tasks memory_pickle shelf)
  /\ exists w2,
       Tasks.done memory_pickle friday_afternoon "12"
         (snd (Tasks.done memory_pickle thursday "12" shelf)) = (Ok tt, w2)
       /\ Tasks.tasks memory_pickle w2
          = [low; mark_completed friday_afternoon mid; high]
       /\ Tasks.stdout memory_pickle w2 = [Completed 12; Completed 12].
Proof.
  assert (Hin : In mid (Tasks.tasks memory_pickle shelf))
    by (right; left; reflexivity).
  refine (conj eq_refl (conj Hin _)).
  destruct (done_twice_keeps_later memory_pickle thursday friday_afternoon
              "12" 12 shelf mid eq_refl Hin eq_refl)
    as (w2 & H1 & H2 & _ & H4).
  exists w2. exact (conj H1 (conj (eq_trans H2 eq_refl) H4)).
Defined.

Lemma done_keeps_rows_in_place_witness :
  PyInt.int "12" = Ok 12
  /\ NoDup (map id (Tasks.tasks memory_pickle shelf))
  /\ Tasks.list_rows memory_pickle
       (snd (Tasks.done memory_pickle friday_afternoon "12" shelf))
     = [high; low]
  /\ Tasks.report_rows memory_pickle
       (snd (Tasks.done memory_pickle friday_afternoon "12" shelf))
     = [high; mark_completed friday_afternoon mid; low].
Proof.
  destruct (done_keeps_rows_in_place memory_pickle friday_afternoon "12" 12
              shelf eq_refl shelf_ids) as [H1 H2].
  exact (conj eq_refl
           (conj shelf_ids (conj (eq_trans H1 eq_refl) (eq_trans H2 eq_refl)))).
Defined.

Lemma add_appends_one_witness :
  due_of thursday (Some "friday") = Ok (Some friday_afternoon)
  /\ exists w',
       Tasks.add memory_pickle 14 thursday thursday "milk" (Some "friday") 2
         shelf = (Ok tt, w')
       /\ Tasks.tasks memory_pickle w' = [low; mid; high; milk]
       /\ Tasks.stdout memory_pickle w' = [Created 14]
       /\ filter (Tasks.has_id 14) (Tasks.list_rows memory_pickle w') = [milk].
Proof.
  split; [reflexivity|].
  destruct (add_appends_one memory_pickle 14 thursday thursday "milk"
              (Some "friday") 2 shelf) as [H _].
  destruct (H (Some friday_afternoon) eq_refl)
    as (w' & H1 & H2 & _ & H4 & _ & H6).
  exists w'. refine (conj H1 (conj H2 (conj H4 (H6 _)))).
  cbn. intuition discriminate.
Defined.

Lemma unique_ids_kept_witness :
  NoDup (map id (Tasks.tasks memory_pickle shelf))
  /\ NoDup (map id (Tasks.tasks memory_pickle
                      (snd (Tasks.done memory_pickle friday_afternoon "12"
                              shelf))))
  /\ NoDup (map id (Tasks.tasks memory_pickle
                      (snd (Tasks.delete memory_pickle "12" shelf))))
  /\ NoDup (map id (Tasks.tasks memory_pickle
                      (snd (Tasks.add memory_pickle 14 thursday thursday
                              "milk" (Some "friday") 2 shelf)))).
Proof.
  destruct (unique_ids_kept memory_pickle shelf shelf_ids) as (H1 & H2 & H3).
  refine (conj shelf_ids (conj (H1 _ _) (conj (H2 _) (H3 _ _ _ _ _ _ _)))).
  cbn. intuition discriminate.
Defined.

Lemma tomorrow_is_next_day_witness :
  Str.lower (Str.strip " Tomorrow ") = "tomorrow"
  /\ DT.valid thursday = true
  /\ exists d,
       parse_due_date thursday " Tomorrow " = Ok (Some d)
       /\ DT.toordinal d = DT.toordinal thursday + 1
       /\ DT.time_of d = DT.time_of thursday
       /\ DT.weekday d = (DT.weekday thursday + 1) mod 7
       /\ DT.date_of d <> DT.date_of thursday.
Proof.
  refine (conj eq_refl (conj eq_refl _)).
  destruct (tomorrow_is_next_day thursday " Tomorrow " eq_refl eq_refl)
    as [H|[H _]]; [exact H | vm_compute in H; discriminate].
Defined.

Lemma impossible_date_is_no_date_witness :
  DT.valid_date 2025 2 29 = false
  /\ parse_due_date thursday "02/29/2025" = Ok None.
Proof.
  split; [reflexivity|].
  apply (impossible_date_is_no_date thursday 2 29 2025); [lia|lia|lia|].
  reflexivity.
Defined.

Lemma given_date_before_undated_witness :
  Strptime.strptime "01/10/2025" = Ok friday_midnight
  /\ DT.ltb friday_midnight DT.max = true
  /\ ~ In mid [].
Proof.
  destruct (given_date_before_undated "01/10/2025" friday_midnight eq_refl)
    as [H1 H2].
  refine (conj eq_refl (conj H1 _)).
  apply (H2 [low; mid; high] [high; mid] low [] mid); reflexivity.
Defined.

Lemma age_counts_whole_days_witness :
  DT.valid friday_midnight = true /\ DT.valid thursday = true
  /\ sub_days friday_midnight thursday = 0
  /\ age_in_days friday_midnight thursday = "0d".
Proof.
  destruct (age_counts_whole_days friday_midnight thursday eq_refl eq_refl)
    as [H1 H2].
  exact (conj eq_refl
           (conj eq_refl (conj (eq_trans H1 eq_refl) (eq_trans H2 eq_refl)))).
Defined.

Lemma printed_id_is_accepted_witness :
  Z.abs 12 < 10 ^ PyInt.int_max_str_digits
  /\ In mid (Tasks.tasks memory_pickle shelf)
  /\ str_int 12 = "12"
  /\ PyInt.int (str_int 12) = Ok 12
  /\ fst (Tasks.done memory_pickle friday_afternoon (str_int 12) shelf) = Ok tt
  /\ fst (Tasks.delete memory_pickle (str_int 12) shelf) = Ok tt.
Proof.
  assert (Hn : Z.abs 12 < 10 ^ PyInt.int_max_str_digits)
    by (vm_compute; reflexivity).
  assert (Hin : In mid (Tasks.tasks memory_pickle shelf))
    by (right; left; reflexivity).
  destruct (printed_id_is_accepted memory_pickle friday_afternoon 12 shelf
              mid Hn Hin eq_refl) as (H1 & H2 & _ & _ & H5 & _).
  exact (conj Hn (conj Hin (conj eq_refl (conj H1 (conj H2 H5))))).
Defined.

Lemma run_keeps_or_saves_file_witness :
  reads_only list_args
  /\ Tasks.file memory_pickle
       (after (main memory_pickle second_run (Returns list_args) on_disk))
     = Tasks.file memory_pickle on_disk
  /\ Tasks.tasks memory_pickle
       (after (main memory_pickle second_run (Returns list_args) on_disk))
     = [low; mid; high].
Proof.
  assert (Hr : reads_only list_args)
    by (split; [reflexivity | left; reflexivity]).
  destruct (run_keeps_or_saves_file memory_pickle second_run
              (Returns list_args) on_disk) as (_ & _ & H).
  destruct (H list_args eq_refl Hr) as [H1 H2].
  exact (conj Hr (conj H1 (eq_trans (H2 eq_refl) eq_refl))).
Defined.


Lemma add_then_list_next_run_witness :
  given (arg_add add_milk) = Some "milk"
  /\ outcome (main memory_pickle first_run (Returns add_milk) on_disk) = Ok tt
  /\ given (arg_add list_args) = None /\ arg_list list_args = true
  /\ exists rows w2,
       main memory_pickle second_run (Returns list_args)
         (after (main memory_pickle first_run (Returns add_milk) on_disk))
       = mkRun (Ok tt) w2 false
       /\ Tasks.stdout memory_pickle w2 = [Created 14; ListTable rows]
       /\ filter (Tasks.has_id 14) rows = [milk].
Proof.
  refine (conj eq_refl (conj eq_refl (conj eq_refl (conj eq_refl _)))).
  destruct (add_then_list_next_run memory_pickle first_run second_run
              add_milk list_args on_disk "milk" eq_refl eq_refl eq_refl
              eq_refl) as (dd & rows & w2 & Hd & H1 & H2 & _ & _ & H5).
  injection Hd as <-.
  exists rows, w2. refine (conj H1 (conj H2 (H5 _))).
  cbn. intuition discriminate.
Defined.

Lemma date_with_more_text_is_no_date_witness :
  parse_due_date thursday "12/31/2025 " = Ok None
  /\ parse_due_date thursday " 12/31/2025" = Ok None
  /\ parse_due_date thursday "12/31/2025" <> Ok None.
Proof.
  destruct (date_with_more_text_is_no_date thursday 12 31 2025)
    as [H1 H2]; [lia|lia|lia|].
  refine (conj (H1 " "%char "") (conj (H2 " "%char "" eq_refl) _)).
  vm_compute. discriminate.
Defined.

Lemma run_carries_out_one_command_witness :
  outcome (main memory_pickle first_run (Returns add_and_list) on_disk)
  = Ok tt
  /\ commands_given add_and_list
     = [DoAdd "milk"; DoList; DoReport; DoDone "12"; DoDelete "12";
        DoQuery ["m"]]
  /\ Tasks.stdout memory_pickle
       (after (main memory_pickle first_run (Returns add_and_list) on_disk))
     = [Created 14]
  /\ usage (main memory_pickle first_run (Returns add_and_list) on_disk)
     = false
  /\ commands_given no_args = []
  /\ usage (main memory_pickle first_run (Returns no_args) on_disk) = true.
Proof.
  destruct (run_carries_out_one_command memory_pickle first_run add_and_list
              on_disk eq_refl) as (H & _).
  destruct (run_carries_out_one_command memory_pickle first_run no_args
              on_disk eq_refl) as (_ & [_ H'] & _).
  refine (conj eq_refl (conj eq_refl _)).
  rewrite H. refine (conj eq_refl (conj eq_refl (conj eq_refl (H' eq_refl)))).
Defined.
